(** * Admission and lifecycle control plane of the SIP service

    A shallow embedding of [pkg/service/service.go]: the dispatch and
    trunk-authentication resolvers ([DispatchCall], [GetAuthCredentials])
    and the lifecycle of [Service] ([NewService], [Stop], [Run],
    [CanAccept], intake registration).

    Every call that leaves the package (the policy RPC client, the logger,
    the RPC server object, the two injected callbacks, [time.Sleep]) is
    recorded as an [event]; a method of [Service] returns its Go results
    together with the list of events it performed, in program order. *)

From Stdlib Require Import ZArith List String Bool Lia.
Import ListNotations.
Local Open Scope string_scope.
Local Open Scope Z_scope.
Local Open Scope list_scope.

(** ** Collaborating packages *)

(** Go's [error] values.  [ExternalError] stands for an error handed to this
    package by a collaborator (transport, listener, RPC server);
    [Errorf_unexpected_dispatch_result] is the one error the package builds
    itself, [fmt.Errorf("unexpected dispatch result: %v", resp.Result)]. *)
Inductive error : Type :=
| ExternalError (msg : string)
| Errorf_unexpected_dispatch_result (v : Z).

Module rpc.

(** [rpc.SIPDispatchResult] is a protobuf enum, an [int32] on the Go side. *)
Definition SIPDispatchResult : Type := Z.

(** The five named values of the enum.  Their declaration lives in the
    protocol package, so the resolver is stated over any assignment. *)
Class SIPDispatchResultValues : Type := {
  SIPDispatchResult_LEGACY_ACCEPT_OR_PIN : SIPDispatchResult;
  SIPDispatchResult_ACCEPT : SIPDispatchResult;
  SIPDispatchResult_REQUEST_PIN : SIPDispatchResult;
  SIPDispatchResult_REJECT : SIPDispatchResult;
  SIPDispatchResult_DROP : SIPDispatchResult
}.

Record GetSIPTrunkAuthenticationRequest : Type := {
  auth_From : string;
  auth_To : string;
  auth_ToHost : string;
  auth_SrcAddress : string
}.

Record GetSIPTrunkAuthenticationResponse : Type := {
  Username : string;
  Password : string;
  Drop : bool
}.

Record EvaluateSIPDispatchRulesRequest : Type := {
  CallingNumber : string;
  CalledNumber : string;
  CalledHost : string;
  SrcAddress : string;
  Pin : string;
  NoPin : bool
}.

Record EvaluateSIPDispatchRulesResponse : Type := {
  Result : SIPDispatchResult;
  RequestPin : bool;
  RoomName : string;
  ParticipantIdentity : string;
  ParticipantName : string;
  ParticipantMetadata : string;
  WsUrl : string;
  Token : string;
  SipTrunkId : string;
  SipDispatchRuleId : string
}.

(** [rpc.IOInfoClient], restricted to the two calls the service makes.  A
    Go call returning [(resp, err)] yields [inl resp] when [err == nil]
    and [inr err] otherwise. *)
Record IOInfoClient : Type := {
  GetSIPTrunkAuthentication :
    GetSIPTrunkAuthenticationRequest -> GetSIPTrunkAuthenticationResponse + error;
  EvaluateSIPDispatchRules :
    EvaluateSIPDispatchRulesRequest -> EvaluateSIPDispatchRulesResponse + error
}.

(** [rpc.SIPInternalServer], the server object [rpc.NewSIPInternalServer]
    returns; the service only tests it against [nil] and calls it. *)
Inductive SIPInternalServer : Type := SIPInternalServer_obj.

End rpc.

Module sip.

Record CallInfo : Type := {
  FromUser : string;
  ToUser : string;
  ToHost : string;
  SrcAddress : string;
  Pin : string;
  NoPin : bool
}.

Inductive DispatchResult : Type :=
| DispatchAccept
| DispatchRequestPin
| DispatchNoRuleReject
| DispatchNoRuleDrop.

Record CallDispatch : Type := {
  Result : DispatchResult;
  RoomName : string;
  Identity : string;
  Name : string;
  Metadata : string;
  WsUrl : string;
  Token : string;
  TrunkID : string;
  DispatchRuleID : string
}.

(** A composite literal [sip.CallDispatch{Result: r}]: the fields that are
    not listed take Go's zero value, the empty string. *)
Definition CallDispatch_Result (r : DispatchResult) : CallDispatch :=
  {| Result := r; RoomName := ""; Identity := ""; Name := ""; Metadata := "";
     WsUrl := ""; Token := ""; TrunkID := ""; DispatchRuleID := "" |}.

(** "Every optional field empty": all fields but [Result] hold the zero value. *)
Definition optional_fields_empty (d : CallDispatch) : Prop :=
  RoomName d = "" /\ Identity d = "" /\ Name d = "" /\ Metadata d = "" /\
  WsUrl d = "" /\ Token d = "" /\ TrunkID d = "" /\ DispatchRuleID d = "".

(** All optional fields but [TrunkID] hold the zero value. *)
Definition optional_fields_empty_but_TrunkID (d : CallDispatch) : Prop :=
  RoomName d = "" /\ Identity d = "" /\ Name d = "" /\ Metadata d = "" /\
  WsUrl d = "" /\ Token d = "" /\ DispatchRuleID d = "".

End sip.

Module core.

(** [core.Fuse]: a one-way latch whose zero value is intact.  [Break]
    trips it (tripping a broken fuse changes nothing), [IsBroken] reads
    it, and a receive from [Watch()] proceeds once it is broken. *)
Record Fuse : Type := { broken : bool }.

Definition zero : Fuse := {| broken := false |}.
Definition Break (f : Fuse) : Fuse := {| broken := true |}.
Definition IsBroken (f : Fuse) : bool := broken f.

End core.

Module config.

(** The two fields of [config.Config] the service reads. *)
Record Config : Type := {
  PrometheusPort : Z;
  ClusterID : string
}.

End config.

(** ** Events *)

Inductive level : Type := Debug | Info | Warn | Error.

Inductive event : Type :=
(* policy transport *)
| EvGetSIPTrunkAuthentication (req : rpc.GetSIPTrunkAuthenticationRequest)
| EvEvaluateSIPDispatchRules (req : rpc.EvaluateSIPDispatchRulesRequest)
(* logger and standard output *)
| EvLog (l : level) (msg : string) (err : option error)
| EvPrintf (activeCalls : Z)
(* listeners and RPC server *)
| EvListen (port : Z)
| EvServe
| EvListenerClose
| EvNewSIPInternalServer
| EvRpcShutdown
| EvRegisterTopic (clusterID : string)
| EvDeregisterTopic (clusterID : string)
(* shutdown sequence *)
| EvLoadKilled (killed : bool)
| EvActiveCalls (n : Z)
| EvSleep
| EvServiceStop.

Definition trace : Type := list event.

(** ** The service *)

(** The fields of [Service] that the methods read or write.  [promServer]
    holds the port [p] of the server's [Addr], [":p"]; [log], [psrpcServer],
    [bus] and the two callbacks are collaborators and appear as events. *)
Record Service : Type := {
  conf : config.Config;
  psrpcClient : rpc.IOInfoClient;
  promServer : option Z;
  rpcSIPServer : option rpc.SIPInternalServer;
  shutdown : core.Fuse;
  killed : bool
}.

Definition set_rpcSIPServer (v : option rpc.SIPInternalServer) (s : Service) : Service :=
  {| conf := conf s; psrpcClient := psrpcClient s; promServer := promServer s;
     rpcSIPServer := v; shutdown := shutdown s; killed := killed s |}.

Definition set_shutdown (f : core.Fuse) (s : Service) : Service :=
  {| conf := conf s; psrpcClient := psrpcClient s; promServer := promServer s;
     rpcSIPServer := rpcSIPServer s; shutdown := f; killed := killed s |}.

Definition set_killed (b : bool) (s : Service) : Service :=
  {| conf := conf s; psrpcClient := psrpcClient s; promServer := promServer s;
     rpcSIPServer := rpcSIPServer s; shutdown := shutdown s; killed := b |}.

Definition NewService (c : config.Config) (cli : rpc.IOInfoClient) : Service :=
  {| conf := c;
     psrpcClient := cli;
     promServer := if config.PrometheusPort c >? 0
                   then Some (config.PrometheusPort c) else None;
     rpcSIPServer := None;
     shutdown := core.zero;
     killed := false |}.

(** *** Stop and CanAccept *)

(** The two statements of [Stop], each an atomic write. *)
Definition Stop_Break (s : Service) : Service :=
  set_shutdown (core.Break (shutdown s)) s.

Definition Stop_Store (kill : bool) (s : Service) : Service :=
  set_killed kill s.

(** [Service.Stop]: [s.shutdown.Break()] then [s.killed.Store(kill)]. *)
Definition Stop (kill : bool) (s : Service) : Service :=
  Stop_Store kill (Stop_Break s).

Definition CanAccept (s : Service) : bool :=
  negb (core.IsBroken (shutdown s)).

(** *** Intake registration *)

(** [Service.RegisterCreateSIPParticipantTopic]; [reg_err] is what the RPC
    server answers when it is asked. *)
Definition RegisterCreateSIPParticipantTopic (reg_err : option error) (s : Service)
  : option error * trace :=
  match rpcSIPServer s with
  | Some _ => (reg_err, [EvRegisterTopic (config.ClusterID (conf s))])
  | None => (None, [])
  end.

(** [Service.DeregisterCreateSIPParticipantTopic]. *)
Definition DeregisterCreateSIPParticipantTopic (s : Service) : trace :=
  match rpcSIPServer s with
  | Some _ => [EvDeregisterTopic (config.ClusterID (conf s))]
  | None => []
  end.

(** *** The resolvers *)

Section Resolvers.

Context {codes : rpc.SIPDispatchResultValues}.

(** [Service.GetAuthCredentials].  The Go results
    [(username, password, drop, err)] are returned as a tuple, [err] being
    [None] for [nil]. *)
Definition GetAuthCredentials (s : Service) (from to toHost srcAddress : string)
  : (string * string * bool * option error) * trace :=
  let req := {| rpc.auth_From := from; rpc.auth_To := to;
                rpc.auth_ToHost := toHost; rpc.auth_SrcAddress := srcAddress |} in
  let call := [EvGetSIPTrunkAuthentication req] in
  match rpc.GetSIPTrunkAuthentication (psrpcClient s) req with
  | inr err => (("", "", false, Some err), call)
  | inl resp =>
      ((rpc.Username resp, rpc.Password resp, rpc.Drop resp, None), call)
  end.

(** The request [DispatchCall] builds from the call's attributes. *)
Definition dispatch_request (info : sip.CallInfo) : rpc.EvaluateSIPDispatchRulesRequest :=
  {| rpc.CallingNumber := sip.FromUser info;
     rpc.CalledNumber := sip.ToUser info;
     rpc.CalledHost := sip.ToHost info;
     rpc.SrcAddress := sip.SrcAddress info;
     rpc.Pin := sip.Pin info;
     rpc.NoPin := sip.NoPin info |}.

(** [Service.DispatchCall].  The cases of [switch resp.Result] are compared
    in source order and [default] runs when none matches. *)
Definition DispatchCall (s : Service) (info : sip.CallInfo) : sip.CallDispatch * trace :=
  let req := dispatch_request info in
  let call := [EvEvaluateSIPDispatchRules req] in
  match rpc.EvaluateSIPDispatchRules (psrpcClient s) req with
  | inr err =>
      (sip.CallDispatch_Result sip.DispatchNoRuleReject,
       call ++ [EvLog Warn "SIP handle dispatch rule error" (Some err)])
  | inl resp =>
      if rpc.Result resp =? rpc.SIPDispatchResult_LEGACY_ACCEPT_OR_PIN then
        if rpc.RequestPin resp then
          (sip.CallDispatch_Result sip.DispatchRequestPin, call)
        else
          ({| sip.Result := sip.DispatchAccept;
              sip.RoomName := rpc.RoomName resp;
              sip.Identity := rpc.ParticipantIdentity resp;
              sip.Name := rpc.ParticipantName resp;
              sip.Metadata := rpc.ParticipantMetadata resp;
              sip.WsUrl := rpc.WsUrl resp;
              sip.Token := rpc.Token resp;
              sip.TrunkID := rpc.SipTrunkId resp;
              sip.DispatchRuleID := rpc.SipDispatchRuleId resp |}, call)
      else if rpc.Result resp =? rpc.SIPDispatchResult_ACCEPT then
        ({| sip.Result := sip.DispatchAccept;
            sip.RoomName := rpc.RoomName resp;
            sip.Identity := rpc.ParticipantIdentity resp;
            sip.Name := rpc.ParticipantName resp;
            sip.Metadata := rpc.ParticipantMetadata resp;
            sip.WsUrl := rpc.WsUrl resp;
            sip.Token := rpc.Token resp;
            sip.TrunkID := rpc.SipTrunkId resp;
            sip.DispatchRuleID := rpc.SipDispatchRuleId resp |}, call)
      else if rpc.Result resp =? rpc.SIPDispatchResult_REQUEST_PIN then
        ({| sip.Result := sip.DispatchRequestPin;
            sip.RoomName := ""; sip.Identity := ""; sip.Name := "";
            sip.Metadata := ""; sip.WsUrl := ""; sip.Token := "";
            sip.TrunkID := rpc.SipTrunkId resp;
            sip.DispatchRuleID := "" |}, call)
      else if rpc.Result resp =? rpc.SIPDispatchResult_REJECT then
        (sip.CallDispatch_Result sip.DispatchNoRuleReject, call)
      else if rpc.Result resp =? rpc.SIPDispatchResult_DROP then
        (sip.CallDispatch_Result sip.DispatchNoRuleDrop, call)
      else
        (sip.CallDispatch_Result sip.DispatchNoRuleReject,
         call ++ [EvLog Error "SIP handle dispatch rule error"
                    (Some (Errorf_unexpected_dispatch_result (rpc.Result resp)))])
  end.

End Resolvers.

(** *** Run *)

(** What the collaborators answer during one execution of [Run]:
    [net.Listen], [rpc.NewSIPInternalServer] and the topic registration
    either succeed ([None]) or fail, and [activeCalls n] is what the
    injected [sipServiceActiveCalls] returns on its call number [n]
    (counting from 0).  Go's [int] is read as an integer. *)
Record World : Type := {
  listen_err : option error;
  newServer_err : option error;
  register_err : option error;
  activeCalls : nat -> Z
}.

(** Where the goroutine executing [Run] stands between two steps: not yet
    called, parked in the [select] on [s.shutdown.Watch()] (at first, or
    again after a [time.Sleep]) having polled the gauge [polls] times, or
    returned.  [Run] is called once in the lifetime of a service. *)
Inductive run_pc : Type :=
| NotStarted
| Parked (polls : nat)
| Returned (err : option error).

(** [defer promListener.Close()], registered only when a metrics server is
    configured. *)
Definition deferred_listener (s : Service) : trace :=
  match promServer s with
  | Some _ => [EvListenerClose]
  | None => []
  end.

(** [Run] from its first statement up to the [for] loop.  An early return
    runs the deferred calls registered so far, last registered first. *)
Definition Run_start (w : World) (s : Service) : Service * run_pc * trace :=
  let t0 := [EvLog Debug "starting service" None] in
  match promServer s, listen_err w with
  | Some p, Some err => (s, Returned (Some err), t0 ++ [EvListen p])
  | _, _ =>
      let t1 := t0 ++ match promServer s with
                      | Some p => [EvListen p; EvServe]
                      | None => []
                      end in
      match newServer_err w with
      | Some err =>
          (set_rpcSIPServer None s, Returned (Some err),
           t1 ++ [EvNewSIPInternalServer] ++ deferred_listener s)
      | None =>
          let s1 := set_rpcSIPServer (Some rpc.SIPInternalServer_obj) s in
          let '(err, treg) := RegisterCreateSIPParticipantTopic (register_err w) s1 in
          match err with
          | Some e =>
              (s1, Returned (Some e),
               t1 ++ [EvNewSIPInternalServer] ++ treg
                  ++ [EvRpcShutdown] ++ deferred_listener s1)
          | None =>
              (s1, Parked 0,
               t1 ++ [EvNewSIPInternalServer] ++ treg
                  ++ [EvLog Debug "service ready" None])
          end
      end
  end.

(** One pass through the body of [case <-s.shutdown.Watch()], entered once
    the fuse is broken.  It ends in [continue] after the sleep (the
    goroutine is parked again, one more poll made) or in [return nil], which
    runs the deferred calls. *)
Definition Run_pass (w : World) (polls : nat) (s : Service) : run_pc * trace :=
  let t := EvLog Info "shutting down" None :: DeregisterCreateSIPParticipantTopic s in
  let stop := [EvServiceStop; EvRpcShutdown] ++ deferred_listener s in
  if negb (killed s) then
    let n := activeCalls w polls in
    if n >? 0 then
      (Parked (S polls), t ++ [EvLoadKilled false; EvActiveCalls n; EvPrintf n; EvSleep])
    else
      (Returned None, t ++ [EvLoadKilled false; EvActiveCalls n] ++ stop)
  else
    (Returned None, t ++ [EvLoadKilled true] ++ stop).

(** The goroutine of [Run] advanced to its next parking point.  Parked on an
    intact fuse it stays where it is. *)
Definition Run_step (w : World) (pc : run_pc) (s : Service) : Service * run_pc * trace :=
  match pc with
  | NotStarted => Run_start w s
  | Parked polls =>
      if core.IsBroken (shutdown s)
      then let '(pc', t) := Run_pass w polls s in (s, pc', t)
      else (s, pc, [])
  | Returned _ => (s, pc, [])
  end.

(** ** The service under concurrent use *)

Section System.

Context {codes : rpc.SIPDispatchResultValues}.

(** What a scheduler can pick next: a whole call of an exported method by
    some goroutine, one of the two writes of a [Stop] call on its own (so
    that the loop may run between them), or a step of the goroutine in
    [Run]. *)
Inductive action : Type :=
| ActStop (kill : bool)
| ActStopBreak
| ActStopStore (kill : bool)
| ActRun
| ActGetAuthCredentials (from to toHost srcAddress : string)
| ActDispatchCall (info : sip.CallInfo)
| ActCanAccept
| ActRegister (reg_err : option error)
| ActDeregister.

Record system : Type := {
  svc : Service;
  run : run_pc;
  events : trace
}.

Definition init (c : config.Config) (cli : rpc.IOInfoClient) : system :=
  {| svc := NewService c cli; run := NotStarted; events := [] |}.

Definition step (w : World) (sys : system) (a : action) : system :=
  let s := svc sys in
  match a with
  | ActStop kill =>
      {| svc := Stop kill s; run := run sys; events := events sys |}
  | ActStopBreak =>
      {| svc := Stop_Break s; run := run sys; events := events sys |}
  | ActStopStore kill =>
      {| svc := Stop_Store kill s; run := run sys; events := events sys |}
  | ActRun =>
      let '(s', pc', t) := Run_step w (run sys) s in
      {| svc := s'; run := pc'; events := events sys ++ t |}
  | ActGetAuthCredentials from to toHost srcAddress =>
      {| svc := s; run := run sys;
         events := events sys ++ snd (GetAuthCredentials s from to toHost srcAddress) |}
  | ActDispatchCall info =>
      {| svc := s; run := run sys; events := events sys ++ snd (DispatchCall s info) |}
  | ActCanAccept => sys
  | ActRegister reg_err =>
      {| svc := s; run := run sys;
         events := events sys ++ snd (RegisterCreateSIPParticipantTopic reg_err s) |}
  | ActDeregister =>
      {| svc := s; run := run sys;
         events := events sys ++ DeregisterCreateSIPParticipantTopic s |}
  end.

Definition exec (w : World) (acts : list action) (sys : system) : system :=
  fold_left (step w) acts sys.

End System.

(** *** Concrete data for the examples *)

(** The numbering of the protocol's enum. *)
Definition protocol_values : rpc.SIPDispatchResultValues :=
  {| rpc.SIPDispatchResult_LEGACY_ACCEPT_OR_PIN := 0;
     rpc.SIPDispatchResult_ACCEPT := 1;
     rpc.SIPDispatchResult_REQUEST_PIN := 2;
     rpc.SIPDispatchResult_REJECT := 3;
     rpc.SIPDispatchResult_DROP := 4 |}.

Definition sample_conf : config.Config :=
  {| config.PrometheusPort := 0; config.ClusterID := "cluster-a" |}.

Definition failing_client : rpc.IOInfoClient :=
  {| rpc.GetSIPTrunkAuthentication := fun _ => inr (ExternalError "unreachable");
     rpc.EvaluateSIPDispatchRules := fun _ => inr (ExternalError "unreachable") |}.

(** A gauge answering the listed counts in turn and 0 afterwards. *)
Definition gauge_of (l : list Z) : nat -> Z := fun n => nth n l 0.

Definition world_of (l : list Z) : World :=
  {| listen_err := None; newServer_err := None; register_err := None;
     activeCalls := gauge_of l |}.

(** A policy client that answers every dispatch evaluation with [resp] and
    every authentication request with the given credentials. *)
Definition answering_client (resp : rpc.EvaluateSIPDispatchRulesResponse)
    (auth : rpc.GetSIPTrunkAuthenticationResponse) : rpc.IOInfoClient :=
  {| rpc.GetSIPTrunkAuthentication := fun _ => inl auth;
     rpc.EvaluateSIPDispatchRules := fun _ => inl resp |}.

Definition sample_auth : rpc.GetSIPTrunkAuthenticationResponse :=
  {| rpc.Username := "trunk-user"; rpc.Password := "s3cret"; rpc.Drop := false |}.

(** A response that fills in every field. *)
Definition full_response (code : rpc.SIPDispatchResult) (pin : bool)
  : rpc.EvaluateSIPDispatchRulesResponse :=
  {| rpc.Result := code; rpc.RequestPin := pin;
     rpc.RoomName := "room-a"; rpc.ParticipantIdentity := "caller-1000";
     rpc.ParticipantName := "Caller"; rpc.ParticipantMetadata := "meta";
     rpc.WsUrl := "wss://lk.example"; rpc.Token := "tok";
     rpc.SipTrunkId := "ST_trunk"; rpc.SipDispatchRuleId := "SDR_rule" |}.

Definition sample_call : sip.CallInfo :=
  {| sip.FromUser := "1000"; sip.ToUser := "2000"; sip.ToHost := "sip.example";
     sip.SrcAddress := "10.0.0.7"; sip.Pin := ""; sip.NoPin := false |}.

(** ** Vocabulary of the statements *)

(** Requests sent to the policy service. *)
Definition is_rpc_request (e : event) : bool :=
  match e with
  | EvGetSIPTrunkAuthentication _ | EvEvaluateSIPDispatchRules _ => true
  | _ => false
  end.

(** The response with its result code replaced. *)
Definition with_Result (code : rpc.SIPDispatchResult)
    (resp : rpc.EvaluateSIPDispatchRulesResponse) : rpc.EvaluateSIPDispatchRulesResponse :=
  {| rpc.Result := code; rpc.RequestPin := rpc.RequestPin resp;
     rpc.RoomName := rpc.RoomName resp;
     rpc.ParticipantIdentity := rpc.ParticipantIdentity resp;
     rpc.ParticipantName := rpc.ParticipantName resp;
     rpc.ParticipantMetadata := rpc.ParticipantMetadata resp;
     rpc.WsUrl := rpc.WsUrl resp; rpc.Token := rpc.Token resp;
     rpc.SipTrunkId := rpc.SipTrunkId resp;
     rpc.SipDispatchRuleId := rpc.SipDispatchRuleId resp |}.

(** The accepted dispatch as the specification words it: [Accept] with room,
    identity, name, metadata, connection URL, token, trunk and rule copied
    from the response. *)
Definition Accept_copy (resp : rpc.EvaluateSIPDispatchRulesResponse) : sip.CallDispatch :=
  {| sip.Result := sip.DispatchAccept;
     sip.RoomName := rpc.RoomName resp;
     sip.Identity := rpc.ParticipantIdentity resp;
     sip.Name := rpc.ParticipantName resp;
     sip.Metadata := rpc.ParticipantMetadata resp;
     sip.WsUrl := rpc.WsUrl resp;
     sip.Token := rpc.Token resp;
     sip.TrunkID := rpc.SipTrunkId resp;
     sip.DispatchRuleID := rpc.SipDispatchRuleId resp |}.

(** The first statement of a [Stop] call is reached: the action is a whole
    call or its [Break]. *)
Definition enters_Stop (a : action) : bool :=
  match a with
  | ActStop _ | ActStopBreak => true
  | _ => false
  end.

(** Every [Stop] call the action makes is a whole [Stop(true)]. *)
Definition forced_only (a : action) : bool :=
  match a with
  | ActStop false | ActStopBreak | ActStopStore _ => false
  | _ => true
  end.

(** The action is a call of one of the two exported registration methods by
    a goroutine other than the one in [Run]. *)
Definition external_registration (a : action) : bool :=
  match a with
  | ActRegister _ | ActDeregister => true
  | _ => false
  end.

Definition is_register (e : event) : bool :=
  match e with EvRegisterTopic _ => true | _ => false end.

Definition is_deregister (e : event) : bool :=
  match e with EvDeregisterTopic _ => true | _ => false end.

Definition is_sleep (e : event) : bool :=
  match e with EvSleep => true | _ => false end.

Definition is_poll (e : event) : bool :=
  match e with EvActiveCalls _ => true | _ => false end.

(** Number of events of a kind in a trace. *)
Definition count (p : event -> bool) (t : trace) : nat := List.length (filter p t).

(** The drain condition has been seen: the kill flag was loaded as true, or
    the gauge answered zero. *)
Definition idle_observed (t : trace) : Prop :=
  In (EvLoadKilled true) t \/ In (EvActiveCalls 0) t.

(** Every occurrence of [e] in [t] comes after a prefix satisfying [Q]. *)
Definition every_occurrence (e : event) (t : trace) (Q : trace -> Prop) : Prop :=
  forall t1 t2, t = t1 ++ e :: t2 -> Q t1.

(** [n] consecutive steps of the goroutine in [Run]. *)
Definition run_steps (n : nat) : list action :=
  repeat ActRun n.

Definition legacy_pin_service : Service :=
  NewService sample_conf (answering_client (full_response 0 true) sample_auth).

Definition request_pin_service : Service :=
  NewService sample_conf (answering_client (full_response 2 true) sample_auth).

Definition sample_init : system := init sample_conf failing_client.

(** Events of the shutdown loop proper: none of them occurs during startup. *)
Definition drain_event (e : event) : bool :=
  match e with
  | EvServiceStop | EvLoadKilled _ | EvActiveCalls _ | EvPrintf _ | EvSleep
  | EvDeregisterTopic _ => true
  | _ => false
  end.

(** Events of the two resolvers. *)
Definition resolver_event (e : event) : bool :=
  match e with
  | EvGetSIPTrunkAuthentication _ | EvEvaluateSIPDispatchRules _ | EvLog _ _ _ => true
  | _ => false
  end.

(** The drain condition as the loop tests it: the flag was loaded as true,
    or some reading of the gauge was not positive. *)
Definition idle_seen (w : World) (t : trace) : Prop :=
  In (EvLoadKilled true) t \/
  exists k, activeCalls w k <= 0 /\ In (EvActiveCalls (activeCalls w k)) t.

(** Passes of the loop that ended in [return nil]. *)
Definition returned_nil (pc : run_pc) : nat :=
  match pc with
  | Returned None => 1
  | _ => 0
  end.

(** Invariant behind the order of the shutdown sequence, relative to the
    configuration [c] the service was built from. *)
Record ordering_inv (w : World) (c : config.Config) (sys : system) : Prop := {
  oi_conf : conf (svc sys) = c;
  oi_server : forall polls, run sys = Parked polls ->
              rpcSIPServer (svc sys) = Some rpc.SIPInternalServer_obj;
  oi_stop : every_occurrence EvServiceStop (events sys)
              (fun t1 => In (EvDeregisterTopic (config.ClusterID c)) t1 /\ idle_seen w t1);
  oi_not_down : run sys <> Returned None -> ~ In EvServiceStop (events sys);
  oi_running : (forall err, run sys <> Returned err) ->
               ~ In EvRpcShutdown (events sys) /\ ~ In EvListenerClose (events sys);
  oi_down : run sys = Returned None ->
            every_occurrence EvRpcShutdown (events sys) (In EvServiceStop) /\
            every_occurrence EvListenerClose (events sys) (In EvServiceStop)
}.

(** Invariant behind the count of registrations. *)
Record counting_inv (sys : system) : Prop := {
  ci_server : forall polls, run sys = Parked polls ->
              rpcSIPServer (svc sys) = Some rpc.SIPInternalServer_obj;
  ci_register : (count is_register (events sys)
                 <= match run sys with NotStarted => 0 | _ => 1 end)%nat;
  ci_deregister : count is_deregister (events sys)
                  = (count is_sleep (events sys) + returned_nil (run sys))%nat
}.

(** Invariant of the executions whose [Stop] calls are all [Stop(true)]. *)
Record forced_inv (sys : system) : Prop := {
  fi_flag : core.IsBroken (shutdown (svc sys)) = true -> killed (svc sys) = true;
  fi_server : forall polls, run sys = Parked polls ->
              rpcSIPServer (svc sys) = Some rpc.SIPInternalServer_obj;
  fi_polls : count is_poll (events sys) = 0%nat;
  fi_sleeps : count is_sleep (events sys) = 0%nat
}.

(** *** Concrete executions

    All start from [sample_init] with a gauge answering 3, 1, 0; the first
    step of [Run] brings the goroutine to the loop. *)

(** A graceful stop, drained to the end. *)
Definition graceful_run : system :=
  exec (codes := protocol_values) (world_of [3; 1; 0])
    (ActRun :: ActStop false :: run_steps 3) sample_init.

(** A graceful stop and one pass of the loop. *)
Definition graceful_pass_run : system :=
  exec (codes := protocol_values) (world_of [3; 1; 0])
    [ActRun; ActStop false; ActRun] sample_init.

(** [Stop(false)] then [Stop(true)] and one pass of the loop. *)
Definition graceful_then_kill_run : system :=
  exec (codes := protocol_values) (world_of [3; 1; 0])
    [ActRun; ActStop false; ActStop true; ActRun] sample_init.

(** [Stop(true)] then [Stop(false)] and one pass of the loop. *)
Definition kill_then_graceful_run : system :=
  exec (codes := protocol_values) (world_of [3; 1; 0])
    [ActRun; ActStop true; ActStop false; ActRun] sample_init.

(** [Stop(true)] and one pass of the loop. *)
Definition kill_run : system :=
  exec (codes := protocol_values) (world_of [3; 1; 0])
    [ActRun; ActStop true; ActRun] sample_init.

(** A single [Stop(true)] whose two writes are separated by a pass of the
    loop. *)
Definition interrupted_kill_run : system :=
  exec (codes := protocol_values) (world_of [3; 1; 0])
    [ActRun; ActStopBreak; ActRun; ActStopStore true; ActRun] sample_init.

(** What [graceful_run] has done when it invokes the stop callback. *)
Definition graceful_prefix : trace :=
  [EvLog Debug "starting service" None; EvNewSIPInternalServer;
   EvRegisterTopic "cluster-a"; EvLog Debug "service ready" None;
   EvLog Info "shutting down" None; EvDeregisterTopic "cluster-a";
   EvLoadKilled false; EvActiveCalls 3; EvPrintf 3; EvSleep;
   EvLog Info "shutting down" None; EvDeregisterTopic "cluster-a";
   EvLoadKilled false; EvActiveCalls 1; EvPrintf 1; EvSleep;
   EvLog Info "shutting down" None; EvDeregisterTopic "cluster-a";
   EvLoadKilled false; EvActiveCalls 0].

(** *** Vocabulary of the further properties *)

Definition is_log (e : event) : bool :=
  match e with EvLog _ _ _ => true | _ => false end.

Definition is_listen (e : event) : bool :=
  match e with EvListen _ => true | _ => false end.

Definition is_serve (e : event) : bool :=
  match e with EvServe => true | _ => false end.

Definition is_listener_close (e : event) : bool :=
  match e with EvListenerClose => true | _ => false end.

Definition is_rpc_shutdown (e : event) : bool :=
  match e with EvRpcShutdown => true | _ => false end.

Definition is_service_stop (e : event) : bool :=
  match e with EvServiceStop => true | _ => false end.

Definition is_load (e : event) : bool :=
  match e with EvLoadKilled _ => true | _ => false end.

(** The result code is one of the five named values. *)
Definition known_code `{rpc.SIPDispatchResultValues} (r : rpc.SIPDispatchResult) : bool :=
  (r =? rpc.SIPDispatchResult_LEGACY_ACCEPT_OR_PIN)
  || (r =? rpc.SIPDispatchResult_ACCEPT)
  || (r =? rpc.SIPDispatchResult_REQUEST_PIN)
  || (r =? rpc.SIPDispatchResult_REJECT)
  || (r =? rpc.SIPDispatchResult_DROP).

(** The five named values are pairwise different, as the constants of one
    [switch] have to be. *)
Definition codes_distinct `{rpc.SIPDispatchResultValues} : Prop :=
  NoDup [rpc.SIPDispatchResult_LEGACY_ACCEPT_OR_PIN; rpc.SIPDispatchResult_ACCEPT;
         rpc.SIPDispatchResult_REQUEST_PIN; rpc.SIPDispatchResult_REJECT;
         rpc.SIPDispatchResult_DROP].

(** The fields a dispatch may carry, by result: an accepted call any of
    them, a PIN request the trunk only, a rejection or drop none. *)
Definition fields_allowed (d : sip.CallDispatch) : Prop :=
  match sip.Result d with
  | sip.DispatchAccept => True
  | sip.DispatchRequestPin => sip.optional_fields_empty_but_TrunkID d
  | sip.DispatchNoRuleReject | sip.DispatchNoRuleDrop => sip.optional_fields_empty d
  end.

(** A registration event names the cluster [cid]; other events pass. *)
Definition carries_cluster (cid : string) (e : event) : Prop :=
  match e with
  | EvRegisterTopic x | EvDeregisterTopic x => x = cid
  | _ => True
  end.

(** 1 when the service holds an RPC server object, 0 when the field is nil. *)
Definition server_count (s : Service) : nat :=
  match rpcSIPServer s with
  | Some _ => 1
  | None => 0
  end.

(** Invariant of every execution from [init c cli] in the world [w]. *)
Record lifecycle_inv (w : World) (c : config.Config) (cli : rpc.IOInfoClient)
    (sys : system) : Prop := {
  li_conf : conf (svc sys) = c;
  li_client : psrpcClient (svc sys) = cli;
  li_prom : promServer (svc sys) = promServer (NewService c cli);
  li_server : match run sys with
              | NotStarted => rpcSIPServer (svc sys) = None
              | Parked _ | Returned None =>
                  rpcSIPServer (svc sys) = Some rpc.SIPInternalServer_obj
              | Returned (Some _) => True
              end;
  li_stop : count is_service_stop (events sys) = returned_nil (run sys);
  li_load : count is_load (events sys)
            = (count is_sleep (events sys) + returned_nil (run sys))%nat;
  li_poll : match run sys with
            | Parked k => count is_poll (events sys) = k /\ count is_sleep (events sys) = k
            | Returned None =>
                (count is_sleep (events sys) <= count is_poll (events sys)
                 <= count is_sleep (events sys) + 1)%nat
            | _ => count is_poll (events sys) = 0%nat /\ count is_sleep (events sys) = 0%nat
            end;
  li_release : match run sys with
               | Returned _ =>
                   count is_listener_close (events sys) = count is_serve (events sys) /\
                   count is_rpc_shutdown (events sys) = server_count (svc sys)
               | _ =>
                   count is_listener_close (events sys) = 0%nat /\
                   count is_rpc_shutdown (events sys) = 0%nat
               end;
  li_listen : (count is_serve (events sys) <= count is_listen (events sys))%nat /\
              (count is_listen (events sys)
               <= match promServer (svc sys) with Some _ => 1 | None => 0 end)%nat /\
              (run sys = NotStarted -> count is_listen (events sys) = 0%nat);
  li_serve : forall k, run sys = Parked k ->
             count is_serve (events sys)
             = match promServer (svc sys) with Some _ => 1%nat | None => 0%nat end;
  li_intact : core.IsBroken (shutdown (svc sys)) = false ->
              count is_load (events sys) = 0%nat /\ run sys <> Returned None;
  li_err : forall e, run sys = Returned (Some e) ->
           (Some e = listen_err w /\ promServer (svc sys) <> None) \/
           Some e = newServer_err w \/ Some e = register_err w;
  li_cluster : forall e, In e (events sys) -> carries_cluster (config.ClusterID c) e
}.

(** ** The test client of the LiveKit server ([test/lktest/livekit.go])

    The room service, the test handle [t], the context and the ticker are
    collaborators: what they answer is given beforehand, and what the code
    does to them is recorded. *)

Module lktest.

(** How a helper that takes the test handle ends: it returns, or [t.Fatal]
    stops the goroutine, or it is still running when the steps run out. *)
Inductive outcome (A : Type) : Type :=
| Ok (a : A)
| Fatal (err : error)
| Running.
Arguments Ok {A} a.
Arguments Fatal {A} err.
Arguments Running {A}.

(** Go's [int] on a 64-bit platform. *)
Definition max_int : Z := 2 ^ 63 - 1.
Definition wrap_int (z : Z) : Z := (z + 2 ^ 63) mod 2 ^ 64 - 2 ^ 63.

(** [pref+"_"+number+"_"], the start of the names of the rooms a dispatch
    rule creates for a caller. *)
Definition room_prefix (pref number : string) : string :=
  String.append (String.append (String.append pref "_") number) "_".

(** The filter of [ExpectRoomPrefWithParticipants], on the room's name:
    [r.Name != pref && strings.HasPrefix(r.Name, pref+"_"+number+"_")]. *)
Definition room_pref_filter (pref number name : string) : bool :=
  negb (String.eqb name pref) && String.prefix (room_prefix pref number) name.

Section WaitRooms.

(** [*livekit.Room]; [waitRooms] looks at rooms through the filter only. *)
Variable Room : Type.

(** [listing k] is what the room service answers to the call number [k] of
    [ListRooms] (an error makes [ListRooms] call [t.Fatal]); [ctx_done k]
    tells whether the [select] number [k] receives from [ctx.Done()] rather
    than from the ticker. *)
Record Polling : Type := {
  listing : nat -> list Room + error;
  ctx_done : nat -> bool
}.

(** [LiveKit.waitRooms], from its iteration number [k] on, for at most
    [fuel] iterations.  A nil [filter] is [None]. *)
Fixpoint waitRooms (fuel : nat) (env : Polling) (k : nat) (none : bool)
    (filter : option (Room -> bool)) : outcome (list Room) :=
  match fuel with
  | O => Running
  | S fuel' =>
      match listing env k with
      | inr err => Fatal err
      | inl listed =>
          let rooms := match filter with
                       | Some f => List.filter f listed
                       | None => listed
                       end in
          if negb none && (1 <=? List.length rooms)%nat then Ok rooms
          else if none && (List.length rooms =? 0)%nat then Ok rooms
          else if ctx_done env k then Ok rooms
          else waitRooms fuel' env (S k) none filter
      end
  end.

End WaitRooms.

Arguments listing {Room} p k.
Arguments ctx_done {Room} p k.
Arguments waitRooms {Room} fuel env k none filter.

(** The amplitude of the test signal: [math.MaxInt16 / 4]. *)
Definition signalAmp : Z := 32767 / 4.

(** What [SendSignal] does to its collaborators. *)
Inductive sent : Type :=
| LogSending (n val : Z)
| LogStopping (i val : Z)
| WriteSample (val amp : Z).

(** [select_done k] is [Some err] when the [select] number [k] receives
    from [ctx.Done()], [err] being what [ctx.Err()] then answers, and [None]
    when it receives a tick; [write_err k] is the answer of the call number
    [k] of [AudioOut.WriteSample]. *)
Record Sending : Type := {
  select_done : nat -> option error;
  write_err : nat -> option error
}.

(** The loop of [SendSignal] from its iteration number [k] on, [i] being the
    counter of the code. *)
Fixpoint SendSignal_loop (fuel : nat) (env : Sending) (n val : Z) (k : nat) (i : Z)
  : outcome (option error) * list sent :=
  match fuel with
  | O => (Running, [])
  | S fuel' =>
      if (n >? 0) && (i >=? n) then (Ok None, [])
      else
        match select_done env k with
        | Some ctx_err =>
            if n <=? 0 then (Ok None, [LogStopping i val])
            else (Ok (Some ctx_err), [])
        | None =>
            match write_err env k with
            | Some err => (Ok (Some err), [WriteSample val signalAmp])
            | None =>
                let '(r, t) := SendSignal_loop fuel' env n val (S k) (wrap_int (i + 1)) in
                (r, WriteSample val signalAmp :: t)
            end
        end
  end.

(** [Participant.SendSignal]. *)
Definition SendSignal (fuel : nat) (env : Sending) (n val : Z)
  : outcome (option error) * list sent :=
  let '(r, t) := SendSignal_loop fuel env n val 0 0 in
  (r, LogSending n val :: t).

Definition is_write (e : sent) : bool :=
  match e with WriteSample _ _ => true | _ => false end.

(** Samples written to the audio track. *)
Definition written (t : list sent) : nat := List.length (List.filter is_write t).

End lktest.

(** *** Concrete data for the further properties *)

(** A world in which the topic registration fails. *)
Definition failing_registration_world : World :=
  {| listen_err := None; newServer_err := None;
     register_err := Some (ExternalError "no bus"); activeCalls := gauge_of [] |}.

(** [Run] and a dispatch, no [Stop]. *)
Definition waiting_run : system :=
  exec (codes := protocol_values) (world_of [3; 1; 0])
    [ActRun; ActRun; ActDispatchCall sample_call] sample_init.

(** A graceful stop, the loop not yet entered. *)
Definition parked_run : system :=
  exec (codes := protocol_values) (world_of [3; 1; 0])
    [ActRun; ActStop false] sample_init.

(** A room service that lists one foreign room twice, then the wanted room
    beside it, under a context that ends at the sixth [select]. *)
Definition sample_polling : lktest.Polling string :=
  {| lktest.listing := fun k => if (k <? 2)%nat then inl ["other"]
                                else inl ["room-a"; "other"];
     lktest.ctx_done := fun k => (5 <=? k)%nat |}.

(** A room service that never lists anything, same context. *)
Definition empty_polling : lktest.Polling string :=
  {| lktest.listing := fun _ => inl [];
     lktest.ctx_done := fun k => (5 <=? k)%nat |}.

(** Nothing interrupts the sender. *)
Definition quiet_sending : lktest.Sending :=
  {| lktest.select_done := fun _ => None; lktest.write_err := fun _ => None |}.

(** The context is cancelled at the third [select]. *)
Definition cancelled_sending : lktest.Sending :=
  {| lktest.select_done := fun k => if (2 <=? k)%nat
                                    then Some (ExternalError "context canceled")
                                    else None;
     lktest.write_err := fun _ => None |}.

(** ** Properties of the resolvers *)

Section ResolverProperties.

Context {codes : rpc.SIPDispatchResultValues}.

Lemma optional_fields_empty_Result r :
  sip.optional_fields_empty (sip.CallDispatch_Result r).
Proof. unfold sip.optional_fields_empty; cbn; intuition reflexivity. Qed.

(** The legacy case with the PIN flag set, on any response. *)
Lemma DispatchCall_legacy_pin s info resp :
  rpc.EvaluateSIPDispatchRules (psrpcClient s) (dispatch_request info) = inl resp ->
  rpc.Result resp = rpc.SIPDispatchResult_LEGACY_ACCEPT_OR_PIN ->
  rpc.RequestPin resp = true ->
  fst (DispatchCall s info) = sip.CallDispatch_Result sip.DispatchRequestPin.
Proof.
  intros Hcall Hcode Hpin. unfold DispatchCall.
  rewrite Hcall, Hcode, Z.eqb_refl, Hpin. reflexivity.
Qed.

(** C3. When the dispatch-evaluation call fails, [DispatchCall] answers
    [DispatchNoRuleReject] with every optional field empty, and the only
    request it sent to the policy service is the one evaluation request:
    there is no second attempt. *)
Theorem DispatchCall_transport_error s info err :
  rpc.EvaluateSIPDispatchRules (psrpcClient s) (dispatch_request info) = inr err ->
  sip.Result (fst (DispatchCall s info)) = sip.DispatchNoRuleReject /\
  sip.optional_fields_empty (fst (DispatchCall s info)) /\
  filter is_rpc_request (snd (DispatchCall s info))
    = [EvEvaluateSIPDispatchRules (dispatch_request info)].
Proof.
  intros Hcall. unfold DispatchCall. rewrite Hcall. cbn [fst snd].
  split; [reflexivity | split].
  - apply optional_fields_empty_Result.
  - reflexivity.
Qed.

(** C5. A result code that is none of the five named values makes
    [DispatchCall] answer [DispatchNoRuleReject] with no optional field
    populated; in particular the answer is not [DispatchAccept]. *)
Theorem DispatchCall_unknown_code s info resp :
  rpc.EvaluateSIPDispatchRules (psrpcClient s) (dispatch_request info) = inl resp ->
  rpc.Result resp <> rpc.SIPDispatchResult_LEGACY_ACCEPT_OR_PIN ->
  rpc.Result resp <> rpc.SIPDispatchResult_ACCEPT ->
  rpc.Result resp <> rpc.SIPDispatchResult_REQUEST_PIN ->
  rpc.Result resp <> rpc.SIPDispatchResult_REJECT ->
  rpc.Result resp <> rpc.SIPDispatchResult_DROP ->
  sip.Result (fst (DispatchCall s info)) = sip.DispatchNoRuleReject /\
  sip.optional_fields_empty (fst (DispatchCall s info)) /\
  sip.Result (fst (DispatchCall s info)) <> sip.DispatchAccept.
Proof.
  intros Hcall H1 H2 H3 H4 H5. unfold DispatchCall. rewrite Hcall.
  apply Z.eqb_neq in H1, H2, H3, H4, H5.
  rewrite H1, H2, H3, H4, H5. cbn [fst].
  split; [reflexivity | split].
  - apply optional_fields_empty_Result.
  - discriminate.
Qed.

(** C6. On a response carrying the legacy code without the PIN flag,
    [DispatchCall] returns exactly what it returns when the same response
    carries the plain accept code: [DispatchAccept] with the eight
    optional fields copied from the response. *)
Theorem DispatchCall_legacy_accept_same_as_accept s s' info resp :
  rpc.EvaluateSIPDispatchRules (psrpcClient s) (dispatch_request info) = inl resp ->
  rpc.Result resp = rpc.SIPDispatchResult_LEGACY_ACCEPT_OR_PIN ->
  rpc.RequestPin resp = false ->
  rpc.EvaluateSIPDispatchRules (psrpcClient s') (dispatch_request info)
    = inl (with_Result rpc.SIPDispatchResult_ACCEPT resp) ->
  fst (DispatchCall s info) = Accept_copy resp /\
  fst (DispatchCall s' info) = Accept_copy resp /\
  fst (DispatchCall s info) = fst (DispatchCall s' info).
Proof.
  intros Hcall Hcode Hpin Hcall'.
  assert (Hs : fst (DispatchCall s info) = Accept_copy resp).
  { unfold DispatchCall. rewrite Hcall, Hcode, Z.eqb_refl, Hpin. reflexivity. }
  assert (Hs' : fst (DispatchCall s' info) = Accept_copy resp).
  { unfold DispatchCall. rewrite Hcall'. cbn [rpc.Result rpc.RequestPin with_Result].
    rewrite Hpin, Z.eqb_refl.
    destruct (_ =? _); reflexivity. }
  rewrite Hs, Hs'. auto.
Qed.

(** C9. [GetAuthCredentials] sends one authentication request and nothing
    else; a failed call hands the transport's error back as it is (with
    empty credentials), a successful one hands back the response's
    username, password and drop flag with a nil error. *)
Theorem GetAuthCredentials_round_trip s from to toHost srcAddress :
  let req := {| rpc.auth_From := from; rpc.auth_To := to;
                rpc.auth_ToHost := toHost; rpc.auth_SrcAddress := srcAddress |} in
  let out := GetAuthCredentials s from to toHost srcAddress in
  snd out = [EvGetSIPTrunkAuthentication req] /\
  (forall err, rpc.GetSIPTrunkAuthentication (psrpcClient s) req = inr err ->
               fst out = ("", "", false, Some err)) /\
  (forall resp, rpc.GetSIPTrunkAuthentication (psrpcClient s) req = inl resp ->
                fst out = (rpc.Username resp, rpc.Password resp, rpc.Drop resp, None)).
Proof.
  cbv zeta. unfold GetAuthCredentials.
  destruct (rpc.GetSIPTrunkAuthentication _ _) as [resp | err]; cbn [fst snd].
  - split; [reflexivity | split]; intros x Hx; [discriminate | now inversion Hx].
  - split; [reflexivity | split]; intros x Hx; [now inversion Hx | discriminate].
Qed.

End ResolverProperties.

(** Concrete instances of the resolver properties. *)


Lemma DispatchCall_transport_error_witness :
  sip.Result (fst (DispatchCall (codes := protocol_values)
                     (NewService sample_conf failing_client) sample_call))
    = sip.DispatchNoRuleReject.
Proof.
  apply (DispatchCall_transport_error (codes := protocol_values)
           (NewService sample_conf failing_client) sample_call
           (ExternalError "unreachable")).
  reflexivity.
Defined.

Lemma DispatchCall_unknown_code_witness :
  sip.Result (fst (DispatchCall (codes := protocol_values)
                     (NewService sample_conf
                        (answering_client (full_response 7 false) sample_auth))
                     sample_call))
    = sip.DispatchNoRuleReject.
Proof.
  apply (DispatchCall_unknown_code (codes := protocol_values)
           (NewService sample_conf (answering_client (full_response 7 false) sample_auth))
           sample_call (full_response 7 false));
    [reflexivity | cbn; lia ..].
Defined.

Lemma DispatchCall_legacy_accept_same_as_accept_witness :
  fst (DispatchCall (codes := protocol_values)
         (NewService sample_conf (answering_client (full_response 0 false) sample_auth))
         sample_call)
  = fst (DispatchCall (codes := protocol_values)
           (NewService sample_conf (answering_client (full_response 1 false) sample_auth))
           sample_call).
Proof.
  apply (DispatchCall_legacy_accept_same_as_accept (codes := protocol_values)
           (NewService sample_conf (answering_client (full_response 0 false) sample_auth))
           (NewService sample_conf (answering_client (full_response 1 false) sample_auth))
           sample_call (full_response 0 false));
    reflexivity.
Defined.

Lemma GetAuthCredentials_round_trip_witness :
  fst (GetAuthCredentials (NewService sample_conf failing_client)
         "1000" "2000" "sip.example" "10.0.0.7")
    = ("", "", false, Some (ExternalError "unreachable")) /\
  fst (GetAuthCredentials
         (NewService sample_conf (answering_client (full_response 1 false) sample_auth))
         "1000" "2000" "sip.example" "10.0.0.7")
    = ("trunk-user", "s3cret", false, None).
Proof.
  split.
  - exact (proj1 (proj2 (GetAuthCredentials_round_trip
                           (NewService sample_conf failing_client)
                           "1000" "2000" "sip.example" "10.0.0.7"))
             (ExternalError "unreachable") eq_refl).
  - exact (proj2 (proj2 (GetAuthCredentials_round_trip
                           (NewService sample_conf
                              (answering_client (full_response 1 false) sample_auth))
                           "1000" "2000" "sip.example" "10.0.0.7"))
             sample_auth eq_refl).
Defined.

(** The scenario of the specification: the policy accepts with a room and
    an identity. *)
Example DispatchCall_accept_scenario :
  let d := fst (DispatchCall (codes := protocol_values)
                  (NewService sample_conf
                     (answering_client (full_response 1 false) sample_auth))
                  sample_call) in
  sip.Result d = sip.DispatchAccept /\ sip.RoomName d = "room-a" /\
  sip.Identity d = "caller-1000".
Proof. cbn. auto. Qed.

(** C4. The legacy code with the PIN flag set, on a response that carries
    the trunk id ["ST_trunk"]: [DispatchCall] answers [DispatchRequestPin]
    with [TrunkID] left empty, while the same response under the explicit
    request-PIN code yields [TrunkID = "ST_trunk"]. *)
Theorem DispatchCall_legacy_pin_leaves_TrunkID_empty :
  let legacy := fst (DispatchCall (codes := protocol_values) legacy_pin_service sample_call) in
  let explicit := fst (DispatchCall (codes := protocol_values) request_pin_service sample_call) in
  rpc.SipTrunkId (full_response 0 true) = "ST_trunk" /\
  sip.Result legacy = sip.DispatchRequestPin /\
  sip.TrunkID legacy = "" /\
  sip.optional_fields_empty legacy /\
  sip.Result explicit = sip.DispatchRequestPin /\
  sip.TrunkID explicit = "ST_trunk" /\
  sip.optional_fields_empty_but_TrunkID explicit.
Proof.
  cbv zeta.
  rewrite (DispatchCall_legacy_pin (codes := protocol_values)
             legacy_pin_service sample_call (full_response 0 true))
    by reflexivity.
  unfold sip.optional_fields_empty, sip.optional_fields_empty_but_TrunkID.
  cbn. intuition reflexivity.
Qed.

(** ** Properties of the lifecycle *)

Section LifecycleProperties.

Context {codes : rpc.SIPDispatchResultValues}.


Lemma exec_app w acts1 acts2 sys :
  exec w (acts1 ++ acts2) sys = exec w acts2 (exec w acts1 sys).
Proof. unfold exec. apply fold_left_app. Qed.

(** *** What [Run] leaves untouched *)

Lemma Run_start_fields w s :
  let s' := fst (fst (Run_start w s)) in
  shutdown s' = shutdown s /\ killed s' = killed s /\
  conf s' = conf s /\ promServer s' = promServer s /\
  psrpcClient s' = psrpcClient s.
Proof.
  unfold Run_start, RegisterCreateSIPParticipantTopic.
  destruct (promServer s) eqn:Hp, (listen_err w), (newServer_err w), (register_err w);
    cbn; rewrite ?Hp; auto.
Qed.

Lemma Run_step_fields w pc s :
  let s' := fst (fst (Run_step w pc s)) in
  shutdown s' = shutdown s /\ killed s' = killed s /\
  conf s' = conf s /\ promServer s' = promServer s /\
  psrpcClient s' = psrpcClient s.
Proof.
  destruct pc as [| polls | err]; cbn [Run_step].
  - apply Run_start_fields.
  - destruct (core.IsBroken (shutdown s)); [destruct (Run_pass w polls s) |];
      cbn; auto.
  - cbn; auto.
Qed.

(** *** The gate *)

Lemma step_CanAccept w sys a :
  CanAccept (svc (step w sys a)) = CanAccept (svc sys) && negb (enters_Stop a).
Proof.
  destruct a; cbn [step enters_Stop negb svc];
    rewrite ?andb_true_r, ?andb_false_r; try reflexivity.
  destruct (Run_step w (run sys) (svc sys)) as [[s' pc'] t] eqn:Hrun.
  cbn [svc]. unfold CanAccept.
  pose proof (Run_step_fields w (run sys) (svc sys)) as Hf.
  rewrite Hrun in Hf. cbn in Hf. destruct Hf as [-> _]. reflexivity.
Qed.

Lemma exec_CanAccept w acts sys :
  CanAccept (svc (exec w acts sys))
  = CanAccept (svc sys) && negb (existsb enters_Stop acts).
Proof.
  revert sys. induction acts as [| a acts IH]; intros sys; cbn [exec fold_left existsb].
  - now rewrite andb_true_r.
  - fold (exec w acts (step w sys a)). rewrite IH, step_CanAccept.
    rewrite negb_orb, andb_assoc. reflexivity.
Qed.

(** C10. From a new service on, whatever methods are called and however
    their calls are scheduled, [CanAccept] answers true exactly as long
    as no call of [Stop] has been entered: it is true on the new
    service, false from the first [Stop] on whichever its [kill]
    argument, and an action that is not a [Stop] leaves its answer as it
    was. *)
Theorem CanAccept_until_Stop w c cli :
  CanAccept (NewService c cli) = true /\
  (forall kill s, CanAccept (Stop kill s) = false) /\
  (forall acts, CanAccept (svc (exec w acts (init c cli)))
                = negb (existsb enters_Stop acts)) /\
  (forall sys a, CanAccept (svc (step w sys a))
                 = CanAccept (svc sys) && negb (enters_Stop a)).
Proof.
  repeat split.
  - intros acts. now rewrite exec_CanAccept.
  - intros sys a. apply step_CanAccept.
Qed.

(** *** The kill flag *)

(** C1 (amended). The gate trips once and stays tripped, but the kill flag
    is the one of the latest [Stop] call: after [Stop(k1)] then
    [Stop(k2)] the service is in the state [Stop(k2)] alone leaves it in,
    so that every continuation of the execution is the same in both
    cases. *)
Theorem Stop_latest_call_is_loaded k1 k2 s :
  core.IsBroken (shutdown (Stop k1 s)) = true /\
  shutdown (Stop k2 (Stop k1 s)) = shutdown (Stop k1 s) /\
  killed (Stop k2 (Stop k1 s)) = k2 /\
  Stop k2 (Stop k1 s) = Stop k2 s /\
  (forall w polls, In (EvLoadKilled k2) (snd (Run_pass w polls (Stop k2 (Stop k1 s))))) /\
  (forall w acts sys,
      exec w (ActStop k1 :: ActStop k2 :: acts) sys
      = exec w (ActStop k2 :: acts) sys).
Proof.
  repeat split.
  intros w polls. unfold Run_pass. cbn [Stop Stop_Store set_killed killed].
  destruct k2; cbn [negb]; [| destruct (_ >? 0)];
    cbn [snd]; apply in_or_app; right; cbn; auto.
Qed.

(** *** Occurrences in a trace *)

Lemma every_occurrence_app_old e t t' Q :
  every_occurrence e t Q -> ~ In e t' -> every_occurrence e (t ++ t') Q.
Proof.
  intros Hold Hnew t1 t2 Heq.
  apply app_eq_app in Heq as [l [[-> Hl] | [-> Hl]]].
  - destruct l as [| x l]; cbn in Hl.
    + exfalso. apply Hnew. rewrite <- Hl. now left.
    + injection Hl as <- _. now apply (Hold t1 l).
  - exfalso. apply Hnew. rewrite Hl. apply in_or_app. right. now left.
Qed.

Lemma every_occurrence_app_new e t t' Q :
  ~ In e t -> every_occurrence e t' (fun p => Q (t ++ p)) ->
  every_occurrence e (t ++ t') Q.
Proof.
  intros Hold Hnew t1 t2 Heq.
  apply app_eq_app in Heq as [l [[Ht Hl] | [Ht Hl]]].
  - destruct l as [| x l]; cbn in Hl.
    + rewrite app_nil_r in Ht. subst t1.
      change (Q t) with ((fun p => Q p) t). rewrite <- (app_nil_r t).
      apply (Hnew [] t2). now rewrite <- Hl.
    + injection Hl as <- _. exfalso. apply Hold. rewrite Ht.
      apply in_or_app. right. now left.
  - subst t1. now apply (Hnew l t2).
Qed.

Lemma every_occurrence_nil e Q : every_occurrence e [] Q.
Proof. intros [| x t1] t2 H; discriminate H. Qed.

Lemma every_occurrence_cons e x t (Q : trace -> Prop) :
  (x = e -> Q []) -> every_occurrence e t (fun p => Q (x :: p)) ->
  every_occurrence e (x :: t) Q.
Proof.
  intros Hx Ht [| y t1] t2 Heq; cbn in Heq; injection Heq as -> Heq.
  - now apply Hx.
  - now apply (Ht t1 t2).
Qed.

(** Walks through a trace given element by element. *)
Ltac occurrences :=
  repeat (apply every_occurrence_cons; [intros ?Heq; try discriminate |]);
  try apply every_occurrence_nil; cbv beta.

Lemma every_occurrence_notin e t Q : ~ In e t -> every_occurrence e t Q.
Proof.
  intros Hn t1 t2 ->. exfalso. apply Hn. apply in_or_app. right. now left.
Qed.

(** *** Case analysis of the steps of [Run] *)

Lemma Run_pass_cases w polls s :
  rpcSIPServer s = Some rpc.SIPInternalServer_obj ->
  let cid := config.ClusterID (conf s) in
  let n := activeCalls w polls in
  let head := [EvLog Info "shutting down" None; EvDeregisterTopic cid] in
  (killed s = true /\
   Run_pass w polls s
   = (Returned None,
      head ++ [EvLoadKilled true; EvServiceStop; EvRpcShutdown] ++ deferred_listener s))
  \/ (killed s = false /\ 0 < n /\
      Run_pass w polls s
      = (Parked (S polls),
         head ++ [EvLoadKilled false; EvActiveCalls n; EvPrintf n; EvSleep]))
  \/ (killed s = false /\ n <= 0 /\
      Run_pass w polls s
      = (Returned None,
         head ++ [EvLoadKilled false; EvActiveCalls n; EvServiceStop; EvRpcShutdown]
              ++ deferred_listener s)).
Proof.
  intros Hsrv. cbv zeta. unfold Run_pass, DeregisterCreateSIPParticipantTopic.
  rewrite Hsrv. destruct (killed s); cbn [negb].
  - left. auto.
  - right. destruct (activeCalls w polls >? 0) eqn:Hn.
    + left. apply Z.gtb_lt in Hn. auto.
    + right. rewrite Z.gtb_ltb in Hn. apply Z.ltb_ge in Hn. auto.
Qed.


Lemma Run_start_cases w s :
  exists s' pc t,
    Run_start w s = (s', pc, t) /\
    (forall e, In e t -> drain_event e = false) /\
    (count is_register t <= 1)%nat /\
    ((pc = Parked 0 /\ rpcSIPServer s' = Some rpc.SIPInternalServer_obj /\
      ~ In EvRpcShutdown t /\ ~ In EvListenerClose t /\ count is_register t = 1%nat)
     \/ exists err, pc = Returned (Some err)).
Proof.
  unfold Run_start, RegisterCreateSIPParticipantTopic, deferred_listener.
  destruct (promServer s) eqn:Hp, (listen_err w), (newServer_err w), (register_err w);
    cbn; rewrite ?Hp; cbn;
    (eexists _, _, _; split; [reflexivity |]);
    (split; [intros ev Hev; cbn in Hev; intuition (subst; reflexivity) |]);
    (split; [cbn; lia |]);
    try (right; eexists; reflexivity);
    left; cbn; intuition (try discriminate; try reflexivity).
Qed.


Lemma DispatchCall_events s info e :
  In e (snd (DispatchCall s info)) -> resolver_event e = true.
Proof.
  unfold DispatchCall.
  destruct (rpc.EvaluateSIPDispatchRules _ _) as [resp | err].
  - repeat match goal with
           | |- context [if ?b then _ else _] => destruct b
           end; cbn; intuition (subst; reflexivity).
  - cbn; intuition (subst; reflexivity).
Qed.

Lemma GetAuthCredentials_events s from to toHost srcAddress e :
  In e (snd (GetAuthCredentials s from to toHost srcAddress)) ->
  resolver_event e = true.
Proof.
  unfold GetAuthCredentials.
  destruct (rpc.GetSIPTrunkAuthentication _ _); cbn; intuition (subst; reflexivity).
Qed.

(** An action other than a step of [Run] leaves the goroutine of [Run]
    where it is, writes no field but the gate and the flag, and adds only
    resolver events, or registration events when it is a registration
    call. *)
Lemma step_other w sys a :
  a <> ActRun ->
  run (step w sys a) = run sys /\
  conf (svc (step w sys a)) = conf (svc sys) /\
  rpcSIPServer (svc (step w sys a)) = rpcSIPServer (svc sys) /\
  promServer (svc (step w sys a)) = promServer (svc sys) /\
  exists t, events (step w sys a) = events sys ++ t /\
            forall e, In e t ->
                      resolver_event e = true \/
                      (external_registration a = true /\
                       (is_register e || is_deregister e) = true).
Proof.
  intros Ha. destruct a; try congruence; cbn [step run svc events];
    (repeat split; try reflexivity).
  1-3: exists []; rewrite app_nil_r; split; [reflexivity | intros e []].
  - eexists; split; [reflexivity |]. intros e He. left.
    eapply GetAuthCredentials_events; eassumption.
  - eexists; split; [reflexivity |]. intros e He. left.
    eapply DispatchCall_events; eassumption.
  - exists []; rewrite app_nil_r; split; [reflexivity | intros e []].
  - eexists; split; [reflexivity |]. intros e He. right.
    unfold RegisterCreateSIPParticipantTopic in He.
    destruct (rpcSIPServer (svc sys)); cbn in He; intuition (subst; reflexivity).
  - eexists; split; [reflexivity |]. intros e He. right.
    unfold DeregisterCreateSIPParticipantTopic in He.
    destruct (rpcSIPServer (svc sys)); cbn in He; intuition (subst; reflexivity).
Qed.

(** *** Order of the shutdown sequence *)




Lemma ordering_inv_init w c cli : ordering_inv w c (init c cli).
Proof.
  constructor; cbn [init svc run events].
  - reflexivity.
  - intros polls H; discriminate H.
  - apply every_occurrence_nil.
  - intros _ H; exact H.
  - intros _. split; intros H; exact H.
  - intros H; discriminate H.
Qed.

Lemma ordering_inv_step w c sys a :
  ordering_inv w c sys -> ordering_inv w c (step w sys a).
Proof.
  intros [Hconf Hsrv Hstop Hnd Hrunning Hdown].
  destruct (match a with ActRun => true | _ => false end) eqn:Hrun.
  - (* a step of Run *)
    destruct a; try discriminate. clear Hrun. cbn [step].
    destruct (run sys) as [| polls | err] eqn:Hpc; cbn [Run_step].
    + (* startup *)
      destruct (Run_start_cases w (svc sys))
        as (s' & pc & t & Hstart & Hev & _ & Hpc').
      pose proof (Run_start_fields w (svc sys)) as Hf.
      rewrite Hstart in *. cbn in Hf. destruct Hf as (_ & _ & Hc & _).
      assert (Hns : ~ In EvServiceStop (events sys ++ t)).
      { intros Hin. apply in_app_or in Hin as [Hin | Hin].
        - apply Hnd; [discriminate | exact Hin].
        - apply Hev in Hin. discriminate. }
      constructor; cbn.
      * congruence.
      * intros polls Hp. destruct Hpc' as [(_ & Hs & _) | [err ->]];
          [exact Hs | discriminate].
      * now apply every_occurrence_notin.
      * intros _. exact Hns.
      * intros Hr. destruct Hpc' as [(_ & _ & H1 & H2 & _) | [err ->]];
          [| now elim (Hr (Some err))].
        destruct Hrunning as [H3 H4]; [discriminate |].
        split; intros Hin; apply in_app_or in Hin as [Hin | Hin]; tauto.
      * intros Hr. destruct Hpc' as [(-> & _) | [err ->]]; discriminate.
    + (* parked *)
      destruct (core.IsBroken (shutdown (svc sys))) eqn:Hb.
      * specialize (Hsrv polls eq_refl).
        assert (Hold : ~ In EvServiceStop (events sys)) by (apply Hnd; discriminate).
        destruct Hrunning as [Hold1 Hold2]; [discriminate |].
        pose proof (Run_pass_cases w polls (svc sys) Hsrv) as Hcases.
        cbv zeta in Hcases. rewrite Hconf in Hcases.
        unfold deferred_listener in Hcases.
        destruct Hcases as [(Hk & ->) | [(Hk & Hn & ->) | (Hk & Hn & ->)]];
          constructor; cbn [svc run events]; try assumption;
          try (intros; discriminate); try (intros H; now elim H);
          try (intros H; now elim (H None)).
        -- apply every_occurrence_app_new; [assumption |].
           destruct (promServer (svc sys)); cbn; occurrences;
             (split; [apply in_or_app; right; cbn; auto
                     | left; apply in_or_app; right; cbn; auto]).
        -- intros _. split; (apply every_occurrence_app_new; [assumption |]);
             destruct (promServer (svc sys)); cbn; occurrences; try discriminate;
             apply in_or_app; right; cbn; auto 10.
        -- apply every_occurrence_notin. intros Hin.
           apply in_app_or in Hin as [Hin | Hin]; [tauto |].
           cbn in Hin. intuition discriminate.
        -- intros _ Hin.
           apply in_app_or in Hin as [Hin | Hin]; [tauto |].
           cbn in Hin. intuition discriminate.
        -- intros _. split; intros Hin;
             (apply in_app_or in Hin as [Hin | Hin]; [tauto |]);
             cbn in Hin; intuition discriminate.
        -- apply every_occurrence_app_new; [assumption |].
           destruct (promServer (svc sys)); cbn; occurrences;
             (split; [apply in_or_app; right; cbn; auto
                     | right; exists polls; split;
                       [assumption | apply in_or_app; right; cbn; auto]]).
        -- intros _. split; (apply every_occurrence_app_new; [assumption |]);
             destruct (promServer (svc sys)); cbn; occurrences; try discriminate;
             apply in_or_app; right; cbn; auto 10.
      * rewrite app_nil_r. constructor; cbn [svc run events]; auto.
    + rewrite app_nil_r. constructor; cbn [svc run events]; auto.
  - (* any other action *)
    assert (Ha : a <> ActRun) by (intros ->; discriminate).
    destruct (step_other w sys a Ha) as (Hr & Hc & Hs & _ & t & Ht & Hev).
    assert (Hquiet : forall e, resolver_event e = false ->
                               (is_register e || is_deregister e) = false ->
                               ~ In e t).
    { intros e H1 H2 Hin. destruct (Hev e Hin) as [H | [_ H]]; congruence. }
    constructor; rewrite ?Hr, ?Hc, ?Hs, ?Ht; try assumption.
    + apply every_occurrence_app_old; [assumption | now apply Hquiet].
    + intros H Hin. apply in_app_or in Hin as [Hin | Hin];
        [now apply Hnd | revert Hin; now apply Hquiet].
    + intros H. destruct (Hrunning H) as [H1 H2].
      split; intros Hin; (apply in_app_or in Hin as [Hin | Hin];
        [tauto | revert Hin; now apply Hquiet]).
    + intros H. destruct (Hdown H) as [H1 H2].
      split; (apply every_occurrence_app_old; [assumption | now apply Hquiet]).
Qed.

Lemma ordering_inv_exec w c acts sys :
  ordering_inv w c sys -> ordering_inv w c (exec w acts sys).
Proof.
  revert sys. induction acts as [| a acts IH]; intros sys H; [exact H |].
  apply IH. now apply ordering_inv_step.
Qed.

(** C2. In every execution from a new service, under any scheduling of
    the calls, with a gauge that reports counts (never a negative
    number): each invocation of the stop callback comes after a
    deregistration of the intake topic and after the loop has loaded the
    kill flag as true or read the gauge as zero; and unless [Run] failed
    during startup, each shutdown of the RPC server or close of the
    listener comes after the stop callback, hence after that
    observation too. *)
Theorem shutdown_ordering w c cli acts :
  (forall k, 0 <= activeCalls w k) ->
  let sys := exec w acts (init c cli) in
  (forall t1 t2,
      events sys = t1 ++ EvServiceStop :: t2 ->
      In (EvDeregisterTopic (config.ClusterID c)) t1 /\ idle_observed t1) /\
  ((forall err, run sys <> Returned (Some err)) ->
   forall e t1 t2,
     e = EvRpcShutdown \/ e = EvListenerClose ->
     events sys = t1 ++ e :: t2 ->
     In EvServiceStop t1 /\ idle_observed t1).
Proof.
  intros Hcount sys.
  pose proof (ordering_inv_exec w c acts _ (ordering_inv_init w c cli)) as Hinv.
  fold sys in Hinv. destruct Hinv as [_ _ Hstop Hnd Hrunning Hdown].
  assert (Hobs : forall t, idle_seen w t -> idle_observed t).
  { intros t [H | (k & Hk & H)]; [now left | right].
    replace (activeCalls w k) with 0 in H by (specialize (Hcount k); lia).
    exact H. }
  assert (Hfirst : forall t1 t2,
             events sys = t1 ++ EvServiceStop :: t2 ->
             In (EvDeregisterTopic (config.ClusterID c)) t1 /\ idle_observed t1).
  { intros t1 t2 Heq. destruct (Hstop t1 t2 Heq) as [Hd Hi]. auto. }
  split; [exact Hfirst |].
  intros Hok e t1 t2 He Heq.
  assert (Hin : In EvServiceStop t1).
  { destruct (run sys) as [| polls | [err |]] eqn:Hpc.
    - exfalso. destruct Hrunning as [H1 H2]; [discriminate |].
      destruct He as [-> | ->]; [apply H1 | apply H2];
        rewrite Heq; apply in_or_app; right; now left.
    - exfalso. destruct Hrunning as [H1 H2]; [discriminate |].
      destruct He as [-> | ->]; [apply H1 | apply H2];
        rewrite Heq; apply in_or_app; right; now left.
    - now elim (Hok err).
    - destruct (Hdown eq_refl) as [H1 H2].
      destruct He as [-> | ->]; [apply (H1 t1 t2 Heq) | apply (H2 t1 t2 Heq)]. }
  split; [exact Hin |].
  apply in_split in Hin as (a & b & ->).
  rewrite <- app_assoc in Heq. cbn in Heq.
  destruct (Hfirst _ _ Heq) as [_ [H | H]]; [left | right];
    apply in_or_app; now left.
Qed.

(** *** Counting registrations *)

Lemma count_app p t t' : count p (t ++ t') = (count p t + count p t')%nat.
Proof. unfold count. now rewrite filter_app, length_app. Qed.

Lemma count_none p t : (forall e, In e t -> p e = false) -> count p t = 0%nat.
Proof.
  unfold count. induction t as [| x t IH]; intros H; [reflexivity |].
  cbn. rewrite (H x) by now left. apply IH. intros e He. apply H. now right.
Qed.



Lemma counting_inv_step w sys a :
  external_registration a = false ->
  counting_inv sys -> counting_inv (step w sys a).
Proof.
  intros Hext [Hsrv Hreg Hdereg].
  destruct (match a with ActRun => true | _ => false end) eqn:Hrun.
  - destruct a; try discriminate. clear Hrun Hext. cbn [step].
    destruct (run sys) as [| polls | err] eqn:Hpc; cbn [Run_step].
    + destruct (Run_start_cases w (svc sys))
        as (s' & pc & t & Hstart & Hev & Hone & Hpc').
      rewrite Hstart.
      assert (Hd : count is_deregister t = 0%nat).
      { apply count_none. intros e He. apply Hev in He. now destruct e. }
      assert (Hs : count is_sleep t = 0%nat).
      { apply count_none. intros e He. apply Hev in He. now destruct e. }
      constructor; cbn [svc run events]; rewrite ?count_app.
      * intros polls Hp. destruct Hpc' as [(_ & H & _) | [err ->]];
          [exact H | discriminate].
      * destruct Hpc' as [(-> & _) | [err ->]]; lia.
      * rewrite Hd, Hs, Hdereg.
        destruct Hpc' as [(-> & _) | [err ->]]; cbn; lia.
    + destruct (core.IsBroken (shutdown (svc sys))) eqn:Hb.
      * specialize (Hsrv polls eq_refl).
        pose proof (Run_pass_cases w polls (svc sys) Hsrv) as Hcases.
        cbv zeta in Hcases. unfold deferred_listener in Hcases.
        destruct Hcases as [(Hk & ->) | [(Hk & Hn & ->) | (Hk & Hn & ->)]];
          constructor; cbn [svc run events]; rewrite ?count_app;
          try (intros; discriminate);
          try (intros p Hp; assumption);
          destruct (promServer (svc sys)); cbn in *; lia.
      * rewrite app_nil_r. constructor; cbn [svc run events]; auto.
    + rewrite app_nil_r. constructor; cbn [svc run events]; auto.
  - assert (Ha : a <> ActRun) by (intros ->; discriminate).
    destruct (step_other w sys a Ha) as (Hr & _ & Hs & _ & t & Ht & Hev).
    assert (Hres : forall e, In e t -> resolver_event e = true).
    { intros e He. destruct (Hev e He) as [H | [H _]]; [exact H | congruence]. }
    constructor; rewrite ?Hr, ?Hs, ?Ht, ?count_app; try assumption.
    + rewrite (count_none is_register t), Nat.add_0_r; [exact Hreg |].
      intros e He. apply Hres in He. now destruct e.
    + rewrite (count_none is_deregister t), (count_none is_sleep t), !Nat.add_0_r;
        [exact Hdereg | |]; intros e He; apply Hres in He; now destruct e.
Qed.

(** C8 (amended). When no other goroutine calls the two registration
    methods, an execution registers the intake topic at most once, and
    deregisters it once per pass of the shutdown loop: once for every
    poll-sleep, and once more in the pass that returns nil. *)
Theorem deregistration_once_per_pass w c cli acts :
  Forall (fun a => external_registration a = false) acts ->
  let sys := exec w acts (init c cli) in
  (count is_register (events sys) <= 1)%nat /\
  count is_deregister (events sys)
  = (count is_sleep (events sys) + returned_nil (run sys))%nat.
Proof.
  intros Hacts sys.
  assert (Hinv : counting_inv sys).
  { subst sys. assert (H0 : counting_inv (init c cli)).
    { constructor; cbn; [discriminate | lia | reflexivity]. }
    revert H0. generalize (init c cli) as sys0.
    induction Hacts as [| a acts Ha _ IH]; intros sys0 H0; [exact H0 |].
    apply IH. now apply counting_inv_step. }
  destruct Hinv as [_ Hreg Hdereg]. split; [| exact Hdereg].
  destruct (run sys); lia.
Qed.

(** *** Forced kill *)


Lemma Run_pass_killed w polls s :
  rpcSIPServer s = Some rpc.SIPInternalServer_obj ->
  killed s = true ->
  Run_pass w polls s
  = (Returned None,
     [EvLog Info "shutting down" None; EvDeregisterTopic (config.ClusterID (conf s));
      EvLoadKilled true; EvServiceStop; EvRpcShutdown] ++ deferred_listener s).
Proof.
  intros Hsrv Hk.
  destruct (Run_pass_cases w polls s Hsrv) as [(_ & H) | [(H & _) | (H & _)]];
    [exact H | congruence ..].
Qed.

Lemma forced_inv_step w sys a :
  forced_only a = true -> forced_inv sys -> forced_inv (step w sys a).
Proof.
  intros Hforced [Hflag Hsrv Hpolls Hsleeps].
  destruct a as [[|] | | kill | | from to toHost srcAddress | info | | reg_err |];
    try discriminate; cbn [step].
  - (* Stop(true) *)
    constructor; cbn [svc run events]; auto.
  - (* a step of Run *)
    destruct (run sys) as [| polls | err] eqn:Hpc; cbn [Run_step].
    + destruct (Run_start_cases w (svc sys))
        as (s' & pc & t & Hstart & Hev & _ & Hpc').
      pose proof (Run_start_fields w (svc sys)) as Hf.
      rewrite Hstart in *. cbn in Hf. destruct Hf as (Hsh & Hki & _).
      constructor; cbn [svc run events]; rewrite ?count_app, ?Hsh, ?Hki.
      * exact Hflag.
      * intros polls Hp. destruct Hpc' as [(_ & H & _) | [err ->]];
          [exact H | discriminate].
      * rewrite Hpolls. apply count_none. intros e He. apply Hev in He. now destruct e.
      * rewrite Hsleeps. apply count_none. intros e He. apply Hev in He. now destruct e.
    + destruct (core.IsBroken (shutdown (svc sys))) eqn:Hb.
      * rewrite (Run_pass_killed w polls (svc sys) (Hsrv polls eq_refl) (Hflag eq_refl)).
        unfold deferred_listener.
        constructor; cbn [svc run events]; rewrite ?count_app, ?Hpolls, ?Hsleeps;
          try (intros; discriminate); try (intros _; now apply Hflag);
          destruct (promServer (svc sys)); reflexivity.
      * rewrite app_nil_r. constructor; cbn [svc run events]; auto.
        intros H. congruence.
    + rewrite app_nil_r. constructor; cbn [svc run events]; auto.
  - constructor; cbn [svc run events]; rewrite ?count_app, ?Hpolls, ?Hsleeps; auto;
      apply count_none; intros e He; apply GetAuthCredentials_events in He;
      now destruct e.
  - constructor; cbn [svc run events]; rewrite ?count_app, ?Hpolls, ?Hsleeps; auto;
      apply count_none; intros e He; apply DispatchCall_events in He;
      now destruct e.
  - constructor; auto.
  - constructor; cbn [svc run events]; rewrite ?count_app, ?Hpolls, ?Hsleeps; auto;
      unfold RegisterCreateSIPParticipantTopic;
      destruct (rpcSIPServer (svc sys)); reflexivity.
  - constructor; cbn [svc run events]; rewrite ?count_app, ?Hpolls, ?Hsleeps; auto;
      unfold DeregisterCreateSIPParticipantTopic;
      destruct (rpcSIPServer (svc sys)); reflexivity.
Qed.

Lemma forced_inv_exec w acts sys :
  Forall (fun a => forced_only a = true) acts ->
  forced_inv sys -> forced_inv (exec w acts sys).
Proof.
  intros Hacts. revert sys.
  induction Hacts as [| a acts Ha _ IH]; intros sys H; [exact H |].
  apply IH. now apply forced_inv_step.
Qed.

(** C7 (amended). When every [Stop] call made up to the return of [Run] is
    a [Stop(true)], each completed before the loop's next pass, the gauge
    is never invoked and the loop never sleeps, whatever the gauge would
    answer; and once such a call has been made, the next step of the
    goroutine parked in the loop invokes the stop callback and returns
    nil. *)
Theorem forced_kill_skips_drain w c cli acts :
  Forall (fun a => forced_only a = true) acts ->
  let sys := exec w acts (init c cli) in
  count is_poll (events sys) = 0%nat /\
  count is_sleep (events sys) = 0%nat /\
  (existsb enters_Stop acts = true ->
   forall polls, run sys = Parked polls ->
     let sys' := step w sys ActRun in
     run sys' = Returned None /\ In EvServiceStop (events sys') /\
     count is_poll (events sys') = 0%nat /\ count is_sleep (events sys') = 0%nat).
Proof.
  intros Hacts sys.
  assert (H0 : forced_inv (init c cli)).
  { constructor; cbn; [discriminate | discriminate | reflexivity | reflexivity]. }
  pose proof (forced_inv_exec w acts _ Hacts H0) as Hinv. fold sys in Hinv.
  split; [apply Hinv | split; [apply Hinv |]].
  intros Hstop polls Hpc sys'.
  assert (Hbroken : core.IsBroken (shutdown (svc sys)) = true).
  { pose proof (exec_CanAccept w acts (init c cli)) as H. fold sys in H.
    rewrite Hstop in H. cbn in H. unfold CanAccept in H.
    now destruct (core.IsBroken (shutdown (svc sys))). }
  pose proof (forced_inv_step w sys ActRun eq_refl Hinv) as Hinv'. fold sys' in Hinv'.
  assert (Hsys' : sys' = {| svc := svc sys; run := Returned None;
                            events := events sys
                                      ++ [EvLog Info "shutting down" None;
                                          EvDeregisterTopic (config.ClusterID (conf (svc sys)));
                                          EvLoadKilled true; EvServiceStop; EvRpcShutdown]
                                      ++ deferred_listener (svc sys) |}).
  { unfold sys', step. rewrite Hpc. cbn [Run_step]. rewrite Hbroken.
    rewrite (Run_pass_killed w polls (svc sys)
               (fi_server _ Hinv polls Hpc) (fi_flag _ Hinv Hbroken)).
    reflexivity. }
  split; [now rewrite Hsys' |].
  split; [| split; apply Hinv'].
  rewrite Hsys'. cbn [events]. apply in_or_app. right. cbn. auto.
Qed.

(** *** Graceful drain *)

(** A graceful shutdown returns: parked on a broken fuse with the flag
    clear, the loop sleeps once for each positive reading of the gauge
    and returns nil, after the stop callback, on the first reading that
    is not positive, provided no [Stop] call intervenes. *)
Lemma drain_returns w n :
  forall sys polls,
    run sys = Parked polls ->
    core.IsBroken (shutdown (svc sys)) = true ->
    killed (svc sys) = false ->
    rpcSIPServer (svc sys) = Some rpc.SIPInternalServer_obj ->
    (forall i, (i < n)%nat -> 0 < activeCalls w (polls + i)) ->
    activeCalls w (polls + n) <= 0 ->
    let sys' := exec w (run_steps (S n)) sys in
    run sys' = Returned None /\
    count is_sleep (events sys') = (count is_sleep (events sys) + n)%nat /\
    count is_poll (events sys') = (count is_poll (events sys) + S n)%nat /\
    In EvServiceStop (events sys').
Proof.
  induction n as [| n IH]; intros sys polls Hpc Hb Hk Hsrv Hpos Hzero.
  - cbn [run_steps repeat exec fold_left step]. rewrite Hpc. cbn [Run_step].
    rewrite Hb. rewrite Nat.add_0_r in Hzero.
    destruct (Run_pass_cases w polls (svc sys) Hsrv)
      as [(H & _) | [(_ & H & _) | (_ & _ & ->)]]; [congruence | lia |].
    unfold deferred_listener. cbn [run events]. rewrite !count_app.
    split; [reflexivity |].
    destruct (promServer (svc sys)); cbn; repeat split; try lia;
      apply in_or_app; right; cbn; auto 10.
  - change (run_steps (S (S n))) with (ActRun :: run_steps (S n)).
    cbn [exec fold_left]. fold (exec w (run_steps (S n)) (step w sys ActRun)).
    assert (Hstep : step w sys ActRun
                    = {| svc := svc sys; run := Parked (S polls);
                         events := events sys
                                   ++ [EvLog Info "shutting down" None;
                                       EvDeregisterTopic (config.ClusterID (conf (svc sys)));
                                       EvLoadKilled false;
                                       EvActiveCalls (activeCalls w polls);
                                       EvPrintf (activeCalls w polls); EvSleep] |}).
    { unfold step. rewrite Hpc. cbn [Run_step]. rewrite Hb.
      specialize (Hpos 0%nat ltac:(lia)). rewrite Nat.add_0_r in Hpos.
      destruct (Run_pass_cases w polls (svc sys) Hsrv)
        as [(H & _) | [(_ & _ & ->) | (_ & H & _)]]; [congruence | | lia].
      reflexivity. }
    rewrite Hstep.
    match goal with |- context [exec w _ ?x] => set (sys1 := x) end.
    destruct (IH sys1 (S polls)) as (H1 & H2 & H3 & H4); try reflexivity;
      try assumption.
    + intros i Hi. replace (S polls + i)%nat with (polls + S i)%nat by lia.
      apply Hpos. lia.
    + replace (S polls + n)%nat with (polls + S n)%nat by lia. exact Hzero.
    + split; [exact H1 |]. split; [| split; [| exact H4]].
      * rewrite H2. unfold sys1. cbn [events]. rewrite count_app. cbn. lia.
      * rewrite H3. unfold sys1. cbn [events]. rewrite count_app. cbn. lia.
Qed.

End LifecycleProperties.

(** ** Concrete executions *)

(** The scenario of the specification: after a graceful [Stop(false)] the
    gauge answers 3, 1 and 0, and the stop callback fires after the third
    poll. *)
Example drain_3_1_0 :
  events graceful_run = graceful_prefix ++ [EvServiceStop; EvRpcShutdown] /\
  run graceful_run = Returned None.
Proof. split; reflexivity. Qed.

(** A pass of the loop between the two writes of a single [Stop(true)]
    loads the flag before it is stored, polls the gauge and sleeps; the next
    pass loads it as true. *)
Example Stop_true_interrupted :
  run interrupted_kill_run = Returned None /\
  count is_poll (events interrupted_kill_run) = 1%nat /\
  count is_sleep (events interrupted_kill_run) = 1%nat.
Proof. cbn. auto. Qed.

Lemma gauge_3_1_0_counts : forall k, 0 <= activeCalls (world_of [3; 1; 0]) k.
Proof.
  intros k. cbn. unfold gauge_of.
  destruct k as [| [| [| [| k]]]]; cbn; lia.
Qed.

Lemma shutdown_ordering_witness :
  In (EvDeregisterTopic "cluster-a") graceful_prefix /\ idle_observed graceful_prefix.
Proof.
  apply (proj1 (shutdown_ordering (codes := protocol_values) (world_of [3; 1; 0])
                  sample_conf failing_client
                  (ActRun :: ActStop false :: run_steps 3) gauge_3_1_0_counts)
           graceful_prefix [EvRpcShutdown]).
  reflexivity.
Defined.

(** C1 (counterexample). [Stop(false)] then [Stop(true)], the gauge at 3:
    the recorded flag is true, the loop loads it as true and goes to the
    stop callback without polling, whereas after [Stop(false)] alone it
    polls, sleeps and has not stopped. *)
Lemma Stop_false_then_true_is_a_kill :
  killed (Stop true (Stop false (NewService sample_conf failing_client))) <> false /\
  killed (svc graceful_then_kill_run) = true /\
  In (EvLoadKilled true) (events graceful_then_kill_run) /\
  count is_poll (events graceful_then_kill_run) = 0%nat /\
  In EvServiceStop (events graceful_then_kill_run) /\
  In (EvLoadKilled false) (events graceful_pass_run) /\
  count is_poll (events graceful_pass_run) = 1%nat /\
  ~ In EvServiceStop (events graceful_pass_run) /\
  events graceful_then_kill_run <> events graceful_pass_run.
Proof.
  cbn. repeat split; auto 10; try discriminate.
  intros H. repeat (destruct H as [H | H]; [discriminate H |]). exact H.
Qed.

(** C7 (counterexample). [Stop(true)] is the first call and [Stop(false)]
    follows before the loop loads the flag, the gauge at 3: the loop polls
    the gauge, sleeps, and the stop callback has not been invoked. *)
Lemma Stop_true_then_false_drains :
  count is_poll (events kill_then_graceful_run) = 1%nat /\
  count is_sleep (events kill_then_graceful_run) = 1%nat /\
  ~ In EvServiceStop (events kill_then_graceful_run) /\
  run kill_then_graceful_run = Parked 1.
Proof.
  cbn. repeat split.
  intros H. repeat (destruct H as [H | H]; [discriminate H |]). exact H.
Qed.

Lemma forced_kill_skips_drain_witness :
  run kill_run = Returned None /\ In EvServiceStop (events kill_run) /\
  count is_poll (events kill_run) = 0%nat /\ count is_sleep (events kill_run) = 0%nat.
Proof.
  refine (proj2 (proj2 (forced_kill_skips_drain (codes := protocol_values)
                          (world_of [3; 1; 0]) sample_conf failing_client
                          [ActRun; ActStop true] _)) eq_refl 0%nat eq_refl).
  repeat constructor.
Defined.

(** C8 (counterexample). A graceful shutdown whose gauge answers 3, 1 and 0
    deregisters the intake topic three times. *)
Lemma graceful_drain_deregisters_thrice :
  run graceful_run = Returned None /\
  count is_deregister (events graceful_run) = 3%nat /\
  ~ (count is_deregister (events graceful_run) <= 1)%nat.
Proof. cbn. repeat split. lia. Qed.

Lemma deregistration_once_per_pass_witness :
  (count is_register (events graceful_run) <= 1)%nat /\
  count is_deregister (events graceful_run)
  = (count is_sleep (events graceful_run) + returned_nil (run graceful_run))%nat.
Proof.
  apply (deregistration_once_per_pass (codes := protocol_values) (world_of [3; 1; 0])
           sample_conf failing_client (ActRun :: ActStop false :: run_steps 3)).
  repeat constructor.
Defined.

(** ** Further properties of the resolvers *)

Section ResolverCoverage.

Context {codes : rpc.SIPDispatchResultValues}.

(** Whatever the policy service answers, [DispatchCall] sends it exactly
    one request, and that request carries the six attributes of the call
    unchanged. *)
Theorem DispatchCall_single_request s info :
  filter is_rpc_request (snd (DispatchCall s info))
  = [EvEvaluateSIPDispatchRules
       {| rpc.CallingNumber := sip.FromUser info;
          rpc.CalledNumber := sip.ToUser info;
          rpc.CalledHost := sip.ToHost info;
          rpc.SrcAddress := sip.SrcAddress info;
          rpc.Pin := sip.Pin info;
          rpc.NoPin := sip.NoPin info |}].
Proof.
  unfold DispatchCall.
  destruct (rpc.EvaluateSIPDispatchRules _ _) as [resp | err]; [| reflexivity].
  repeat match goal with
         | |- context [if ?b then _ else _] => destruct b
         end; reflexivity.
Qed.

(** [DispatchCall] admits a call only on the word of the policy service: if
    its result is [DispatchAccept], the transport call succeeded, the
    response carried the accept code or the legacy code without the PIN
    flag, and the dispatch is the field-for-field copy of that response. *)
Theorem DispatchCall_accept_only_when_told s info :
  sip.Result (fst (DispatchCall s info)) = sip.DispatchAccept ->
  exists resp,
    rpc.EvaluateSIPDispatchRules (psrpcClient s) (dispatch_request info) = inl resp /\
    ((rpc.Result resp = rpc.SIPDispatchResult_LEGACY_ACCEPT_OR_PIN /\
      rpc.RequestPin resp = false) \/
     rpc.Result resp = rpc.SIPDispatchResult_ACCEPT) /\
    fst (DispatchCall s info) = Accept_copy resp.
Proof.
  unfold DispatchCall.
  destruct (rpc.EvaluateSIPDispatchRules _ _) as [resp | err]; [| discriminate].
  intros H. exists resp. split; [reflexivity |].
  destruct (rpc.Result resp =? rpc.SIPDispatchResult_LEGACY_ACCEPT_OR_PIN) eqn:H0.
  - apply Z.eqb_eq in H0. destruct (rpc.RequestPin resp); [discriminate H |].
    split; [left; auto | reflexivity].
  - destruct (rpc.Result resp =? rpc.SIPDispatchResult_ACCEPT) eqn:H1.
    + apply Z.eqb_eq in H1. split; [right; auto | reflexivity].
    + repeat match type of H with
             | context [if ?b then _ else _] => destruct b
             end; discriminate H.
Qed.

(** The optional fields of every dispatch are the ones its result allows:
    a PIN request carries at most the trunk id, a rejection or a drop
    carries nothing. *)
Theorem DispatchCall_fields_allowed s info :
  fields_allowed (fst (DispatchCall s info)).
Proof.
  unfold DispatchCall, fields_allowed, sip.optional_fields_empty,
    sip.optional_fields_empty_but_TrunkID.
  destruct (rpc.EvaluateSIPDispatchRules _ _) as [resp | err].
  - repeat match goal with
           | |- context [if ?b then _ else _] => destruct b
           end; cbn; intuition reflexivity.
  - cbn; intuition reflexivity.
Qed.

(** With the five codes pairwise different: the request-PIN code yields a
    PIN request carrying the response's trunk id and nothing else, the
    reject code a rejection and the drop code a drop, both bare; none of
    the three logs anything. *)
Theorem DispatchCall_pin_reject_drop s info resp :
  codes_distinct ->
  rpc.EvaluateSIPDispatchRules (psrpcClient s) (dispatch_request info) = inl resp ->
  (rpc.Result resp = rpc.SIPDispatchResult_REQUEST_PIN ->
   DispatchCall s info
   = ({| sip.Result := sip.DispatchRequestPin;
         sip.RoomName := ""; sip.Identity := ""; sip.Name := "";
         sip.Metadata := ""; sip.WsUrl := ""; sip.Token := "";
         sip.TrunkID := rpc.SipTrunkId resp; sip.DispatchRuleID := "" |},
      [EvEvaluateSIPDispatchRules (dispatch_request info)])) /\
  (rpc.Result resp = rpc.SIPDispatchResult_REJECT ->
   DispatchCall s info
   = (sip.CallDispatch_Result sip.DispatchNoRuleReject,
      [EvEvaluateSIPDispatchRules (dispatch_request info)])) /\
  (rpc.Result resp = rpc.SIPDispatchResult_DROP ->
   DispatchCall s info
   = (sip.CallDispatch_Result sip.DispatchNoRuleDrop,
      [EvEvaluateSIPDispatchRules (dispatch_request info)])).
Proof.
  unfold codes_distinct. intros Hnd Hcall.
  repeat match goal with
         | H : NoDup (_ :: _) |- _ => inversion H; subst; clear H
         end.
  cbn [In] in *.
  unfold DispatchCall. rewrite Hcall.
  repeat split; intros ->;
    repeat match goal with
           | |- context [?a =? ?b] =>
               destruct (Z.eqb_spec a b) as [?Heq | ?Hne];
               [try (exfalso; intuition congruence) | ]
           end; try reflexivity; try congruence.
Qed.

(** [DispatchCall] writes to the log exactly when it fails closed: one
    warning holding the transport's error, or one error entry holding the
    unexpected code; a response with one of the five codes is handled
    silently. *)
Theorem DispatchCall_log s info :
  snd (DispatchCall s info)
  = EvEvaluateSIPDispatchRules (dispatch_request info)
    :: match rpc.EvaluateSIPDispatchRules (psrpcClient s) (dispatch_request info) with
       | inr err => [EvLog Warn "SIP handle dispatch rule error" (Some err)]
       | inl resp =>
           if known_code (rpc.Result resp) then []
           else [EvLog Error "SIP handle dispatch rule error"
                   (Some (Errorf_unexpected_dispatch_result (rpc.Result resp)))]
       end.
Proof.
  unfold DispatchCall, known_code.
  destruct (rpc.EvaluateSIPDispatchRules _ _) as [resp | err]; [| reflexivity].
  repeat match goal with
         | |- context [if ?a =? ?b then _ else _] => destruct (a =? b)
         end; try reflexivity.
  destruct (rpc.RequestPin resp); reflexivity.
Qed.

End ResolverCoverage.

Lemma protocol_values_distinct : codes_distinct (H := protocol_values).
Proof.
  unfold codes_distinct. cbn.
  repeat (constructor; [cbn; intuition lia |]). constructor.
Qed.

Lemma DispatchCall_accept_only_when_told_witness :
  exists resp,
    rpc.EvaluateSIPDispatchRules
      (psrpcClient (NewService sample_conf
                      (answering_client (full_response 1 false) sample_auth)))
      (dispatch_request sample_call) = inl resp /\
    ((rpc.Result resp = 0 /\ rpc.RequestPin resp = false) \/ rpc.Result resp = 1) /\
    fst (DispatchCall (codes := protocol_values)
           (NewService sample_conf (answering_client (full_response 1 false) sample_auth))
           sample_call) = Accept_copy resp.
Proof.
  apply (DispatchCall_accept_only_when_told (codes := protocol_values)
           (NewService sample_conf (answering_client (full_response 1 false) sample_auth))
           sample_call).
  reflexivity.
Defined.

Lemma DispatchCall_pin_reject_drop_witness :
  DispatchCall (codes := protocol_values) request_pin_service sample_call
  = ({| sip.Result := sip.DispatchRequestPin;
        sip.RoomName := ""; sip.Identity := ""; sip.Name := "";
        sip.Metadata := ""; sip.WsUrl := ""; sip.Token := "";
        sip.TrunkID := "ST_trunk"; sip.DispatchRuleID := "" |},
     [EvEvaluateSIPDispatchRules (dispatch_request sample_call)]).
Proof.
  exact (proj1 (DispatchCall_pin_reject_drop (codes := protocol_values)
                  request_pin_service sample_call (full_response 2 true)
                  protocol_values_distinct eq_refl) eq_refl).
Defined.

(** ** Further properties of the lifecycle *)

Section LifecycleCoverage.

Context {codes : rpc.SIPDispatchResultValues}.

(** An action other than a step of [Run] writes at most the gate and the
    flag, and adds resolver events or registration events naming the
    configured cluster. *)
Lemma step_other_frame w sys a :
  a <> ActRun ->
  run (step w sys a) = run sys /\
  conf (svc (step w sys a)) = conf (svc sys) /\
  psrpcClient (svc (step w sys a)) = psrpcClient (svc sys) /\
  promServer (svc (step w sys a)) = promServer (svc sys) /\
  rpcSIPServer (svc (step w sys a)) = rpcSIPServer (svc sys) /\
  exists t, events (step w sys a) = events sys ++ t /\
            forall e, In e t ->
                      resolver_event e = true \/
                      e = EvRegisterTopic (config.ClusterID (conf (svc sys))) \/
                      e = EvDeregisterTopic (config.ClusterID (conf (svc sys))).
Proof.
  intros Ha. destruct a; try congruence; cbn [step run svc events];
    (repeat split; try reflexivity).
  1-3: exists []; rewrite app_nil_r; split; [reflexivity | intros e []].
  - eexists; split; [reflexivity |]. intros e He. left.
    eapply GetAuthCredentials_events; eassumption.
  - eexists; split; [reflexivity |]. intros e He. left.
    eapply DispatchCall_events; eassumption.
  - exists []; rewrite app_nil_r; split; [reflexivity | intros e []].
  - eexists; split; [reflexivity |]. intros e He. right.
    unfold RegisterCreateSIPParticipantTopic in He.
    destruct (rpcSIPServer (svc sys)); cbn in He; intuition.
  - eexists; split; [reflexivity |]. intros e He. right.
    unfold DeregisterCreateSIPParticipantTopic in He.
    destruct (rpcSIPServer (svc sys)); cbn in He; intuition.
Qed.

Lemma step_keeps_broken w sys a :
  core.IsBroken (shutdown (svc sys)) = true ->
  core.IsBroken (shutdown (svc (step w sys a))) = true.
Proof.
  intros H. pose proof (step_CanAccept w sys a) as Hc. unfold CanAccept in Hc.
  rewrite H in Hc. cbn in Hc.
  destruct (core.IsBroken (shutdown (svc (step w sys a)))); [reflexivity | discriminate Hc].
Qed.

Lemma lifecycle_inv_init w c cli : lifecycle_inv w c cli (init c cli).
Proof.
  constructor; cbn [init svc run events].
  - reflexivity.
  - reflexivity.
  - reflexivity.
  - reflexivity.
  - reflexivity.
  - reflexivity.
  - split; reflexivity.
  - split; reflexivity.
  - split; [apply Nat.le_refl | split; [apply Nat.le_0_l | reflexivity]].
  - discriminate.
  - intros _. split; [reflexivity | discriminate].
  - discriminate.
  - intros e [].
Qed.

Ltac count_events :=
  rewrite ?count_app; cbn [count filter List.length is_service_stop is_load is_sleep
                             is_poll is_listener_close is_serve is_rpc_shutdown
                             is_listen app returned_nil server_count].

(** The events of an action other than a step of [Run] are none of those
    the invariant counts. *)
Lemma quiet_counts (t : trace) (cid : string) :
  (forall e, In e t ->
             resolver_event e = true \/ e = EvRegisterTopic cid \/ e = EvDeregisterTopic cid) ->
  count is_service_stop t = 0%nat /\ count is_load t = 0%nat /\
  count is_sleep t = 0%nat /\ count is_poll t = 0%nat /\
  count is_listener_close t = 0%nat /\ count is_serve t = 0%nat /\
  count is_rpc_shutdown t = 0%nat /\ count is_listen t = 0%nat /\
  (forall e, In e t -> carries_cluster cid e).
Proof.
  intros H.
  repeat split;
    try (apply count_none; intros e He;
         destruct (H e He) as [Hr | [-> | ->]]; [now destruct e | reflexivity ..]).
  intros e He. destruct (H e He) as [Hr | [-> | ->]]; [now destruct e | reflexivity ..].
Qed.

Lemma lifecycle_inv_step w c cli sys a :
  lifecycle_inv w c cli sys -> lifecycle_inv w c cli (step w sys a).
Proof.
  intros Hinv.
  destruct (match a with ActRun => true | _ => false end) eqn:Hrun.
  - destruct a; try discriminate. clear Hrun.
    destruct Hinv
      as [Hconf Hcli Hprom Hsrv Hstop Hload Hpoll Hrel Hlis Hserve Hint Herr Hclu].
    cbn [step].
    destruct (run sys) as [| polls | err] eqn:Hpc; cbn [Run_step].
    + (* startup *)
      cbn in Hsrv, Hstop, Hload, Hpoll, Hrel.
      destruct Hpoll as [Hp1 Hp2]. destruct Hrel as [Hr1 Hr2].
      destruct Hlis as (Hl1 & Hl2 & Hl3). specialize (Hl3 eq_refl).
      unfold Run_start, RegisterCreateSIPParticipantTopic, deferred_listener.
      destruct (promServer (svc sys)) as [p |] eqn:Hp,
               (listen_err w) as [e1 |] eqn:He1,
               (newServer_err w) as [e2 |] eqn:He2,
               (register_err w) as [e3 |] eqn:He3;
        cbn [set_rpcSIPServer rpcSIPServer promServer conf];
        rewrite ?Hp;
        (constructor; cbn [svc run events set_rpcSIPServer rpcSIPServer promServer
                             conf psrpcClient shutdown killed];
         rewrite ?Hp; try assumption; try reflexivity; try exact I).
      all: cbn beta iota in Hl2.
      all: unfold server_count; cbn [rpcSIPServer set_rpcSIPServer]; rewrite ?Hsrv.
      all: try solve [count_events; unfold count in *; cbn; lia].
      all: try solve [repeat split; try discriminate; count_events;
                      unfold count in *; cbn; lia].
      all: try solve [intros k Hk; try discriminate Hk; count_events;
                      unfold count in *; cbn; lia].
      all: try solve [intros Hb; destruct (Hint Hb) as [Hi1 Hi2]; split;
           [count_events; unfold count in *; cbn; lia | discriminate]].
      all: try solve [intros e Heq; discriminate Heq].
      all: try solve [intros e Heq; injection Heq as <-;
           first [ left; split; [congruence | discriminate]
                 | right; left; congruence
                 | right; right; congruence ]].
      all: try solve [intros e Hin; apply in_app_or in Hin as [Hin | Hin];
           [now apply Hclu | cbn in Hin; rewrite ?Hconf in Hin;
                             intuition (subst; cbn; auto)]].
    + (* parked *)
      cbn in Hsrv, Hstop, Hload, Hpoll, Hrel.
      destruct Hpoll as [Hp1 Hp2]. destruct Hrel as [Hr1 Hr2].
      destruct Hlis as (Hl1 & Hl2 & Hl3). specialize (Hserve polls eq_refl).
      destruct (core.IsBroken (shutdown (svc sys))) eqn:Hb.
      * pose proof (Run_pass_cases w polls (svc sys) Hsrv) as Hcases.
        cbv zeta in Hcases. rewrite Hconf in Hcases.
        unfold deferred_listener in Hcases.
        destruct (promServer (svc sys)) as [p |] eqn:Hp;
          destruct Hcases as [(Hk & ->) | [(Hk & Hn & ->) | (Hk & Hn & ->)]];
          (constructor; cbn [svc run events]; rewrite ?Hp;
           try assumption; try reflexivity; try exact I).
        all: unfold server_count; rewrite ?Hsrv.
        all: try solve [count_events; unfold count in *; cbn; lia].
        all: try solve [repeat split; try discriminate; count_events;
                        unfold count in *; cbn; lia].
        all: try solve [intros k Hk'; try discriminate Hk'; count_events;
                        unfold count in *; cbn; lia].
        all: try solve [intros Hb'; congruence].
        all: try solve [intros e Heq; discriminate Heq].
        all: try solve [intros e Hin; apply in_app_or in Hin as [Hin | Hin];
             [now apply Hclu | cbn in Hin; intuition (subst; cbn; auto)]].
      * rewrite app_nil_r.
        constructor; cbn [svc run events]; rewrite ?Hpc; cbn; auto.
    + rewrite app_nil_r.
      constructor; cbn [svc run events]; rewrite ?Hpc; auto.
  - assert (Ha : a <> ActRun) by (intros ->; discriminate).
    destruct (step_other_frame w sys a Ha)
      as (Hr & Hc & Hcl & Hp & Hs & t & Ht & Hev).
    destruct Hinv
      as [Hconf Hcli Hprom Hsrv Hstop Hload Hpoll Hrel Hlis Hserve Hint Herr Hclu].
    rewrite Hconf in Hev.
    destruct (quiet_counts t _ Hev) as (Q1 & Q2 & Q3 & Q4 & Q5 & Q6 & Q7 & Q8 & Q9).
    assert (Hsc : server_count (svc (step w sys a)) = server_count (svc sys))
      by (unfold server_count; now rewrite Hs).
    constructor; rewrite ?Hr, ?Hc, ?Hcl, ?Hp, ?Hs, ?Hsc, ?Ht, ?count_app,
                   ?Q1, ?Q2, ?Q3, ?Q4, ?Q5, ?Q6, ?Q7, ?Q8, ?Nat.add_0_r;
      try assumption.
    + intros Hb. apply Hint.
      destruct (core.IsBroken (shutdown (svc sys))) eqn:Hb0; [| reflexivity].
      rewrite (step_keeps_broken w sys a Hb0) in Hb. discriminate Hb.
    + intros e Hin. apply in_app_or in Hin as [Hin | Hin]; [now apply Hclu | now apply Q9].
Qed.

Lemma lifecycle_inv_exec w c cli acts :
  lifecycle_inv w c cli (exec w acts (init c cli)).
Proof.
  assert (H : forall sys, lifecycle_inv w c cli sys ->
                          lifecycle_inv w c cli (exec w acts sys)).
  { induction acts as [| a acts IH]; intros sys Hs; [exact Hs |].
    apply IH. now apply lifecycle_inv_step. }
  apply H, lifecycle_inv_init.
Qed.

(** The stop callback is invoked exactly once in an execution in which
    [Run] has returned nil, and never in any other: not while [Run] waits
    or drains, and not when it fails during startup. *)
Theorem stop_callback_exactly_once w c cli acts :
  let sys := exec w acts (init c cli) in
  count is_service_stop (events sys) = returned_nil (run sys).
Proof. intros sys. apply (lifecycle_inv_exec w c cli acts). Qed.

(** What [Run] acquired it gives back when it returns, on every path: each
    listener it opened is closed, and the RPC server is shut down once if
    it was created and not at all otherwise.  Until it returns neither
    happens. *)
Theorem Run_releases_on_return w c cli acts :
  let sys := exec w acts (init c cli) in
  match run sys with
  | Returned _ =>
      count is_listener_close (events sys) = count is_serve (events sys) /\
      count is_rpc_shutdown (events sys) = server_count (svc sys)
  | _ =>
      count is_listener_close (events sys) = 0%nat /\
      count is_rpc_shutdown (events sys) = 0%nat
  end.
Proof. intros sys. apply (lifecycle_inv_exec w c cli acts). Qed.

(** Each pass of the shutdown loop loads the kill flag once; the gauge is
    polled at most once per pass and every poll but possibly the last is
    followed by a sleep.  A goroutine parked after [k] polls has slept [k]
    times. *)
Theorem loads_polls_and_sleeps w c cli acts :
  let sys := exec w acts (init c cli) in
  count is_load (events sys)
  = (count is_sleep (events sys) + returned_nil (run sys))%nat /\
  (count is_sleep (events sys) <= count is_poll (events sys)
   <= count is_sleep (events sys) + returned_nil (run sys))%nat /\
  (forall k, run sys = Parked k ->
             count is_poll (events sys) = k /\ count is_sleep (events sys) = k).
Proof.
  intros sys. destruct (lifecycle_inv_exec w c cli acts) as [_ _ _ _ _ Hload Hpoll _ _ _ _ _ _].
  fold sys in Hload, Hpoll.
  split; [exact Hload |].
  destruct (run sys) as [| k | [e |]]; cbn in *.
  - split; [lia | discriminate].
  - split; [lia |]. intros k' Hk. injection Hk as <-. exact Hpoll.
  - split; [lia | discriminate].
  - split; [lia | discriminate].
Qed.

(** Every registration and deregistration of the intake topic, by [Run] or
    by a direct call of the two methods, names the configured cluster. *)
Theorem registrations_name_the_cluster w c cli acts :
  forall e, In e (events (exec w acts (init c cli))) ->
            carries_cluster (config.ClusterID c) e.
Proof. apply (lifecycle_inv_exec w c cli acts). Qed.

(** Without a positive metrics port no listener is ever opened or closed;
    with one, [net.Listen] is called at most once. *)
Theorem metrics_listener_is_optional w c cli acts :
  let sys := exec w acts (init c cli) in
  (count is_listen (events sys) <= 1)%nat /\
  (config.PrometheusPort c <= 0 ->
   count is_listen (events sys) = 0%nat /\
   count is_serve (events sys) = 0%nat /\
   count is_listener_close (events sys) = 0%nat).
Proof.
  intros sys.
  destruct (lifecycle_inv_exec w c cli acts) as [_ _ Hprom _ _ _ _ Hrel Hlis _ _ _ _].
  fold sys in Hprom, Hrel, Hlis. destruct Hlis as (H1 & H2 & _).
  split.
  - destruct (promServer (svc sys)); lia.
  - intros Hport. rewrite Hprom in H2. cbn in H2.
    replace (config.PrometheusPort c >? 0) with false in H2
      by (symmetry; rewrite Z.gtb_ltb; apply Z.ltb_ge; exact Hport).
    destruct (run sys); lia.
Qed.

(** An error returned by [Run] is the error of the collaborator that failed
    during startup, handed back as it is; in such an execution the loop was
    never entered and the stop callback never invoked. *)
Theorem Run_error_comes_from_startup w c cli acts e :
  let sys := exec w acts (init c cli) in
  run sys = Returned (Some e) ->
  ((Some e = listen_err w /\ 0 < config.PrometheusPort c) \/
   Some e = newServer_err w \/ Some e = register_err w) /\
  count is_load (events sys) = 0%nat /\
  count is_poll (events sys) = 0%nat /\
  count is_service_stop (events sys) = 0%nat.
Proof.
  intros sys Hret.
  destruct (lifecycle_inv_exec w c cli acts)
    as [_ _ Hprom _ Hstop Hload Hpoll _ _ _ _ Herr _].
  fold sys in Hprom, Hstop, Hload, Hpoll, Herr.
  rewrite Hret in Hstop, Hload, Hpoll. cbn in Hstop, Hload, Hpoll.
  split; [| lia].
  destruct (Herr e Hret) as [[H1 H2] | H]; [left | right; exact H].
  split; [exact H1 |].
  rewrite Hprom in H2. cbn in H2.
  destruct (config.PrometheusPort c >? 0) eqn:Hp; [| congruence].
  now apply Z.gtb_lt.
Qed.

(** Until some goroutine calls [Stop], [Run] does not return nil, its loop
    makes no pass, and the stop callback is not invoked. *)
Theorem Run_waits_for_Stop w c cli acts :
  existsb enters_Stop acts = false ->
  let sys := exec w acts (init c cli) in
  run sys <> Returned None /\
  count is_load (events sys) = 0%nat /\
  count is_service_stop (events sys) = 0%nat.
Proof.
  intros Hno sys.
  destruct (lifecycle_inv_exec w c cli acts) as [_ _ _ _ Hstop _ _ _ _ _ Hint _ _].
  fold sys in Hstop, Hint.
  assert (Hb : core.IsBroken (shutdown (svc sys)) = false).
  { pose proof (exec_CanAccept w acts (init c cli)) as H. fold sys in H.
    rewrite Hno in H. cbn in H. unfold CanAccept in H.
    now destruct (core.IsBroken (shutdown (svc sys))). }
  destruct (Hint Hb) as [H1 H2]. repeat split; try assumption.
  rewrite Hstop. destruct (run sys) as [| k | [e |]]; try reflexivity.
  now elim H2.
Qed.

(** The two resolvers are not gated by the lifecycle: whatever has happened
    to the service (stopped, draining, returned), they answer as on the new
    service. *)
Theorem resolvers_ignore_lifecycle w c cli acts info from to toHost srcAddress :
  let s := svc (exec w acts (init c cli)) in
  DispatchCall s info = DispatchCall (NewService c cli) info /\
  GetAuthCredentials s from to toHost srcAddress
  = GetAuthCredentials (NewService c cli) from to toHost srcAddress.
Proof.
  intros s. pose proof (li_client _ _ _ _ (lifecycle_inv_exec w c cli acts)) as H.
  fold s in H. unfold DispatchCall, GetAuthCredentials. rewrite H. cbn [psrpcClient NewService].
  split; reflexivity.
Qed.

(** A [Stop(true)] during a drain ends it: whatever was scheduled before,
    if the goroutine of [Run] is parked in the loop, then after [Stop(true)]
    its next pass deregisters, invokes the stop callback and returns nil
    without polling the gauge again. *)
Theorem kill_ends_the_drain w c cli acts polls :
  let sys := exec w acts (init c cli) in
  run sys = Parked polls ->
  let sys' := exec w [ActStop true; ActRun] sys in
  run sys' = Returned None /\
  events sys'
  = events sys
    ++ [EvLog Info "shutting down" None; EvDeregisterTopic (config.ClusterID c);
        EvLoadKilled true; EvServiceStop; EvRpcShutdown]
    ++ deferred_listener (svc sys) /\
  count is_poll (events sys') = polls.
Proof.
  intros sys Hpc sys'.
  destruct (lifecycle_inv_exec w c cli acts) as [Hconf _ _ Hsrv _ _ Hpoll _ _ _ _ _ _].
  fold sys in Hconf, Hsrv, Hpoll. rewrite Hpc in Hsrv, Hpoll.
  assert (Hsys' : sys' = {| svc := Stop true (svc sys); run := Returned None;
                            events := events sys
                                      ++ [EvLog Info "shutting down" None;
                                          EvDeregisterTopic (config.ClusterID c);
                                          EvLoadKilled true; EvServiceStop; EvRpcShutdown]
                                      ++ deferred_listener (svc sys) |}).
  { unfold sys'. cbn [exec fold_left step svc run events]. rewrite Hpc.
    cbn [Run_step Stop Stop_Store Stop_Break set_killed set_shutdown shutdown
           core.IsBroken core.Break core.broken].
    rewrite Run_pass_killed by (cbn; auto). unfold deferred_listener.
    cbn [conf promServer Stop Stop_Store Stop_Break set_killed set_shutdown].
    rewrite Hconf. reflexivity. }
  rewrite Hsys'. cbn [run events]. repeat split.
  rewrite !count_app. unfold deferred_listener.
  destruct (promServer (svc sys)); cbn; lia.
Qed.

(** There is no maximum wait: as long as the gauge answers a positive
    count and the flag stays clear, every pass ends in a sleep, the
    goroutine stays parked and the stop callback is not invoked. *)
Theorem drain_has_no_deadline w n :
  forall sys polls,
    run sys = Parked polls ->
    core.IsBroken (shutdown (svc sys)) = true ->
    killed (svc sys) = false ->
    rpcSIPServer (svc sys) = Some rpc.SIPInternalServer_obj ->
    (forall i, (i < n)%nat -> 0 < activeCalls w (polls + i)) ->
    let sys' := exec w (run_steps n) sys in
    run sys' = Parked (polls + n) /\
    svc sys' = svc sys /\
    count is_sleep (events sys') = (count is_sleep (events sys) + n)%nat /\
    count is_service_stop (events sys') = count is_service_stop (events sys).
Proof.
  induction n as [| n IH]; intros sys polls Hpc Hb Hk Hsrv Hpos.
  - cbn. rewrite Nat.add_0_r, Nat.add_0_r. auto.
  - change (run_steps (S n)) with (ActRun :: run_steps n).
    cbn [exec fold_left]. fold (exec w (run_steps n) (step w sys ActRun)).
    assert (Hstep : step w sys ActRun
                    = {| svc := svc sys; run := Parked (S polls);
                         events := events sys
                                   ++ [EvLog Info "shutting down" None;
                                       EvDeregisterTopic (config.ClusterID (conf (svc sys)));
                                       EvLoadKilled false;
                                       EvActiveCalls (activeCalls w polls);
                                       EvPrintf (activeCalls w polls); EvSleep] |}).
    { unfold step. rewrite Hpc. cbn [Run_step]. rewrite Hb.
      specialize (Hpos 0%nat ltac:(lia)). rewrite Nat.add_0_r in Hpos.
      destruct (Run_pass_cases w polls (svc sys) Hsrv)
        as [(H & _) | [(_ & _ & ->) | (_ & H & _)]]; [congruence | | lia].
      reflexivity. }
    rewrite Hstep.
    match goal with |- context [exec w _ ?x] => set (sys1 := x) end.
    destruct (IH sys1 (S polls)) as (H1 & H2 & H3 & H4); try reflexivity;
      try assumption.
    + intros i Hi. replace (S polls + i)%nat with (polls + S i)%nat by lia.
      apply Hpos. lia.
    + split; [rewrite H1; f_equal; lia |]. split; [rewrite H2; reflexivity |].
      split.
      * rewrite H3. unfold sys1. cbn [events]. rewrite count_app. cbn. lia.
      * rewrite H4. unfold sys1. cbn [events]. rewrite count_app. cbn. lia.
Qed.

(** A [Stop] that comes before [Run] does not keep [Run] from starting: it
    still creates the server and registers the intake topic, then goes
    through the shutdown sequence on its first pass. *)
Theorem Stop_before_Run_still_registers w c cli kill :
  listen_err w = None -> newServer_err w = None -> register_err w = None ->
  (kill = true \/ activeCalls w 0 <= 0) ->
  let sys := exec w [ActStop kill; ActRun; ActRun] (init c cli) in
  run sys = Returned None /\
  count is_register (events sys) = 1%nat /\
  count is_deregister (events sys) = 1%nat /\
  count is_service_stop (events sys) = 1%nat.
Proof.
  intros H1 H2 H3 Hk sys. subst sys.
  assert (Hg : kill = false -> (activeCalls w 0 >? 0) = false).
  { intros ->. destruct Hk as [Hk | Hk]; [discriminate Hk |].
    rewrite Z.gtb_ltb. now apply Z.ltb_ge. }
  unfold exec, fold_left, step, init, Run_step, Run_start, Run_pass,
    RegisterCreateSIPParticipantTopic, DeregisterCreateSIPParticipantTopic,
    deferred_listener.
  cbn [svc run events]. rewrite H1, H2.
  cbn [set_rpcSIPServer rpcSIPServer Stop Stop_Store Stop_Break set_killed set_shutdown
         shutdown killed conf promServer NewService core.IsBroken core.Break core.broken].
  rewrite H3.
  destruct (config.PrometheusPort c >? 0);
    cbn [svc run events set_rpcSIPServer rpcSIPServer shutdown killed conf
           promServer core.IsBroken core.broken];
    destruct kill; cbn [negb]; rewrite ?Hg by reflexivity;
    cbn; auto;
    destruct (config.PrometheusPort c >? 0); cbn; auto.
Qed.

End LifecycleCoverage.

(** ** Properties of the test client *)

Module lktest_properties.
Import lktest.

Lemma prefix_app a s : String.prefix a s = true <-> exists t, s = String.append a t.
Proof.
  revert s. induction a as [| x a IH]; intros s.
  - split; [intros _; exists s; reflexivity | intros _; now destruct s].
  - destruct s as [| y s]; cbn;
      [split; [discriminate | intros [t H]; discriminate H] |].
    destruct (Ascii.ascii_dec x y) as [-> | Hne].
    + rewrite IH. split; intros [t H]; exists t; [now rewrite H | now injection H].
    + split; [discriminate | intros [t H]; injection H as H1 H2; congruence].
Qed.

Lemma append_assoc_string a b c :
  String.append (String.append a b) c = String.append a (String.append b c).
Proof. induction a as [| x a IH]; cbn; [reflexivity | now rewrite IH]. Qed.

Lemma append_not_self a b : b <> EmptyString -> String.append a b <> a.
Proof.
  induction a as [| x a IH]; cbn; intros Hb H; [now apply Hb |].
  injection H as H. now apply IH.
Qed.

(** The rooms [ExpectRoomPrefWithParticipants] looks for are exactly those
    whose name starts with [pref_number_]; the test [r.Name != pref]
    excludes nothing more, and a room named [pref] alone never passes. *)
Theorem room_pref_filter_spec pref number name :
  (room_pref_filter pref number name = true <->
   exists suffix, name = String.append (room_prefix pref number) suffix) /\
  room_pref_filter pref number name = String.prefix (room_prefix pref number) name /\
  room_pref_filter pref number pref = false.
Proof.
  assert (Hne : forall t, String.append (room_prefix pref number) t <> pref).
  { intros t. unfold room_prefix. rewrite !append_assoc_string.
    apply append_not_self. discriminate. }
  assert (Heq : room_pref_filter pref number name
                = String.prefix (room_prefix pref number) name).
  { unfold room_pref_filter.
    destruct (String.prefix (room_prefix pref number) name) eqn:Hp;
      [| apply andb_false_r].
    apply prefix_app in Hp as [t ->].
    rewrite andb_true_r. apply negb_true_iff, String.eqb_neq, Hne. }
  split; [rewrite Heq; apply prefix_app |]. split; [exact Heq |].
  unfold room_pref_filter. now rewrite String.eqb_refl.
Qed.

Section WaitRoomsProperties.

Context {Room : Type}.

(** Whatever [waitRooms] returns is one listing of the room service, passed
    through the filter: every room in it satisfies the filter. *)
Theorem waitRooms_filtered fuel (env : Polling Room) k none f rooms :
  waitRooms fuel env k none (Some f) = Ok rooms ->
  Forall (fun r => f r = true) rooms /\
  exists j listed, (k <= j)%nat /\ listing env j = inl listed /\
                   rooms = List.filter f listed.
Proof.
  revert k. induction fuel as [| fuel IH]; intros k; cbn [waitRooms]; [discriminate |].
  destruct (listing env k) as [listed | err] eqn:Hl; [| discriminate].
  assert (Hhere : Forall (fun r => f r = true) (List.filter f listed) /\
                  exists j l, (k <= j)%nat /\ listing env j = inl l /\
                              List.filter f listed = List.filter f l).
  { split; [| exists k, listed; auto].
    apply Forall_forall. intros r Hr. now apply filter_In in Hr. }
  destruct (negb none && _); [intros H; injection H as <-; exact Hhere |].
  destruct (none && _); [intros H; injection H as <-; exact Hhere |].
  destruct (ctx_done env k); [intros H; injection H as <-; exact Hhere |].
  intros H. destruct (IH _ H) as [H1 (j & l & Hj & H2 & H3)].
  split; [exact H1 |]. exists j, l. repeat split; auto. lia.
Qed.

(** [waitRooms] returns what it was waiting for unless the context ended
    first: a non-empty list when asked for some room, an empty one when
    asked for none, anything else only at a [select] that received from
    [ctx.Done()]. *)
Theorem waitRooms_waits fuel (env : Polling Room) k none filter rooms :
  waitRooms fuel env k none filter = Ok rooms ->
  (none = false /\ rooms <> []) \/ (none = true /\ rooms = []) \/
  exists j, (k <= j)%nat /\ ctx_done env j = true.
Proof.
  revert k. induction fuel as [| fuel IH]; intros k; cbn [waitRooms]; [discriminate |].
  destruct (listing env k) as [listed | err]; [| discriminate].
  set (l := match filter with Some f => List.filter f listed | None => listed end).
  destruct none; cbn [negb andb].
  - destruct (List.length l =? 0)%nat eqn:Hlen.
    + intros H; injection H as <-. right; left. split; [reflexivity |].
      apply Nat.eqb_eq in Hlen. now destruct l.
    + destruct (ctx_done env k) eqn:Hd.
      * intros _. right; right. exists k. auto.
      * intros H. destruct (IH _ H) as [? | [? | (j & Hj & ?)]]; auto.
        right; right. exists j. split; [lia | assumption].
  - destruct (1 <=? List.length l)%nat eqn:Hlen.
    + intros H; injection H as <-. left. split; [reflexivity |].
      apply Nat.leb_le in Hlen. destruct l; [cbn in Hlen; lia | discriminate].
    + destruct (ctx_done env k) eqn:Hd.
      * intros _. right; right. exists k. auto.
      * intros H. destruct (IH _ H) as [? | [? | (j & Hj & ?)]]; auto.
        right; right. exists j. split; [lia | assumption].
Qed.

(** The wait is bounded by the context: once a [select] receives from
    [ctx.Done()], [waitRooms] has returned or failed the test by then. *)
Theorem waitRooms_ends_with_context fuel (env : Polling Room) k j none filter :
  (k <= j)%nat -> ctx_done env j = true -> (j - k < fuel)%nat ->
  waitRooms fuel env k none filter <> Running.
Proof.
  revert k. induction fuel as [| fuel IH]; intros k Hkj Hd Hf; [lia |].
  cbn [waitRooms]. destruct (listing env k) as [listed | err]; [| discriminate].
  destruct (negb none && _); [discriminate |].
  destruct (none && _); [discriminate |].
  destruct (ctx_done env k) eqn:Hk; [discriminate |].
  assert (k <> j) by (intros ->; congruence).
  apply IH; [lia | assumption | lia].
Qed.

End WaitRoomsProperties.

(** *** SendSignal *)

Lemma wrap_int_small z : - 2 ^ 63 <= z <= max_int -> wrap_int z = z.
Proof.
  unfold wrap_int, max_int. intros H.
  rewrite Z.mod_small by lia. lia.
Qed.

Lemma written_cons_write val amp t :
  written (WriteSample val amp :: t) = S (written t).
Proof. reflexivity. Qed.

Lemma SendSignal_loop_complete env n val :
  0 < n <= max_int ->
  (forall k, Z.of_nat k < n -> select_done env k = None /\ write_err env k = None) ->
  forall m fuel k,
    Z.of_nat (k + m) = n -> (m < fuel)%nat ->
    SendSignal_loop fuel env n val k (Z.of_nat k)
    = (Ok None, repeat (WriteSample val signalAmp) m).
Proof.
  intros Hn Hquiet. induction m as [| m IH]; intros fuel k Hk Hf;
    (destruct fuel as [| fuel]; [lia |]); cbn [SendSignal_loop].
  - replace (n >? 0) with true by (symmetry; apply Z.gtb_lt; lia).
    replace (Z.of_nat k >=? n) with true by (symmetry; apply Z.geb_le; lia).
    reflexivity.
  - replace (Z.of_nat k >=? n) with false
      by (symmetry; rewrite Z.geb_leb; apply Z.leb_gt; lia).
    rewrite andb_false_r.
    destruct (Hquiet k ltac:(lia)) as [-> ->].
    rewrite wrap_int_small by (unfold max_int in *; lia).
    replace (Z.of_nat k + 1) with (Z.of_nat (S k)) by lia.
    rewrite (IH fuel (S k)) by lia. reflexivity.
Qed.

(** A bounded send that nothing interrupts writes the signal exactly [n]
    times, one sample per tick, and returns nil. *)
Theorem SendSignal_sends_n fuel env n val :
  0 < n <= max_int ->
  (forall k, Z.of_nat k < n -> select_done env k = None /\ write_err env k = None) ->
  (Z.to_nat n < fuel)%nat ->
  SendSignal fuel env n val
  = (Ok None, LogSending n val :: repeat (WriteSample val signalAmp) (Z.to_nat n)).
Proof.
  intros Hn Hquiet Hf. unfold SendSignal.
  pose proof (SendSignal_loop_complete env n val Hn Hquiet (Z.to_nat n) fuel 0%nat
                ltac:(lia) Hf) as H.
  change (Z.of_nat 0) with 0 in H. rewrite H. reflexivity.
Qed.

Lemma SendSignal_loop_bound env n val :
  0 < n <= max_int ->
  forall fuel k,
    Z.of_nat k <= n ->
    (written (snd (SendSignal_loop fuel env n val k (Z.of_nat k))) + k <= Z.to_nat n)%nat /\
    (fst (SendSignal_loop fuel env n val k (Z.of_nat k)) = Ok None ->
     (written (snd (SendSignal_loop fuel env n val k (Z.of_nat k))) + k)%nat = Z.to_nat n).
Proof.
  intros Hn. induction fuel as [| fuel IH]; intros k Hk; cbn [SendSignal_loop].
  - cbn. split; [lia | discriminate].
  - replace (n >? 0) with true by (symmetry; apply Z.gtb_lt; lia).
    cbn [andb]. destruct (Z.of_nat k >=? n) eqn:Hge.
    + apply Z.geb_le in Hge. cbn. split; lia.
    + rewrite Z.geb_leb in Hge. apply Z.leb_gt in Hge.
      destruct (select_done env k) as [ctx_err |].
      * replace (n <=? 0) with false by (symmetry; apply Z.leb_gt; lia).
        cbn. split; [lia | discriminate].
      * destruct (write_err env k) as [err |].
        -- cbn. split; [lia | discriminate].
        -- rewrite wrap_int_small by (unfold max_int in *; lia).
           replace (Z.of_nat k + 1) with (Z.of_nat (S k)) by lia.
           specialize (IH (S k) ltac:(lia)).
           destruct (SendSignal_loop fuel env n val (S k) (Z.of_nat (S k))) as [r t].
           cbn [fst snd] in *. rewrite written_cons_write. split; [lia |].
           intros Hr. destruct IH as [_ IH]. specialize (IH Hr). lia.
Qed.

(** A bounded send never writes more than [n] samples, however it ends, and
    it returns nil only after it has written all [n]. *)
Theorem SendSignal_bounded fuel env n val :
  0 < n <= max_int ->
  (written (snd (SendSignal fuel env n val)) <= Z.to_nat n)%nat /\
  (fst (SendSignal fuel env n val) = Ok None ->
   written (snd (SendSignal fuel env n val)) = Z.to_nat n).
Proof.
  intros Hn. unfold SendSignal.
  pose proof (SendSignal_loop_bound env n val Hn fuel 0%nat ltac:(cbn; lia)) as H.
  change (Z.of_nat 0) with 0 in H.
  destruct (SendSignal_loop fuel env n val 0 0) as [r t]. cbn [fst snd] in *.
  change (written (LogSending n val :: t)) with (written t).
  destruct H as [H1 H2]. split; [lia |]. intros Hr. specialize (H2 Hr). lia.
Qed.

Lemma SendSignal_loop_open env n val :
  n <= 0 ->
  forall fuel k i,
    match fst (SendSignal_loop fuel env n val k i) with
    | Ok None => exists j err, (k <= j)%nat /\ select_done env j = Some err
    | Ok (Some e) => exists j, (k <= j)%nat /\ write_err env j = Some e
    | Fatal _ => False
    | Running => True
    end.
Proof.
  intros Hn. induction fuel as [| fuel IH]; intros k i; cbn [SendSignal_loop];
    [exact I |].
  replace (n >? 0) with false by (symmetry; rewrite Z.gtb_ltb; apply Z.ltb_ge; lia).
  cbn [andb].
  destruct (select_done env k) as [ctx_err |] eqn:Hs.
  - replace (n <=? 0) with true by (symmetry; apply Z.leb_le; lia).
    cbn. exists k, ctx_err. auto.
  - destruct (write_err env k) as [err |] eqn:Hw.
    + cbn. exists k. auto.
    + specialize (IH (S k) (wrap_int (i + 1))).
      destruct (SendSignal_loop fuel env n val (S k) (wrap_int (i + 1))) as [r t].
      cbn [fst] in *. destruct r as [[e |] | |]; auto.
      * destruct IH as (j & Hj & H). exists j. split; [lia | exact H].
      * destruct IH as (j & err & Hj & H). exists j, err. split; [lia | exact H].
Qed.

(** An open-ended send ([n <= 0]) ends only with the context or on a failed
    write: when it returns nil some [select] received from [ctx.Done()]
    (the cancellation is not reported as an error), and when it returns an
    error it is the error of a write. *)
Theorem SendSignal_open_ended fuel env n val :
  n <= 0 ->
  match fst (SendSignal fuel env n val) with
  | Ok None => exists j err, select_done env j = Some err
  | Ok (Some e) => exists j, write_err env j = Some e
  | Fatal _ => False
  | Running => True
  end.
Proof.
  intros Hn. unfold SendSignal.
  pose proof (SendSignal_loop_open env n val Hn fuel 0%nat 0) as H.
  destruct (SendSignal_loop fuel env n val 0 0) as [r t]. cbn [fst] in *.
  destruct r as [[e |] | |]; auto.
  - destruct H as (j & _ & H). eauto.
  - destruct H as (j & err & _ & H). eauto.
Qed.

Lemma SendSignal_loop_error env n val e :
  forall fuel k i,
    fst (SendSignal_loop fuel env n val k i) = Ok (Some e) ->
    (0 < n /\ exists j, select_done env j = Some e) \/
    exists j, write_err env j = Some e.
Proof.
  induction fuel as [| fuel IH]; intros k i; cbn [SendSignal_loop]; [discriminate |].
  destruct ((n >? 0) && (i >=? n)); [discriminate |].
  destruct (select_done env k) as [ctx_err |] eqn:Hs.
  - destruct (n <=? 0) eqn:Hn; [discriminate |].
    cbn. intros H. injection H as <-. left. apply Z.leb_gt in Hn. eauto.
  - destruct (write_err env k) as [err |] eqn:Hw.
    + cbn. intros H. injection H as <-. right. eauto.
    + specialize (IH (S k) (wrap_int (i + 1))).
      destruct (SendSignal_loop fuel env n val (S k) (wrap_int (i + 1))) as [r t].
      exact IH.
Qed.

(** An error returned by [SendSignal] is handed on unchanged: it is the
    error of a failed write, or, for a bounded send only, what [ctx.Err()]
    answered when the context ended before the [n] samples were out. *)
Theorem SendSignal_error_origin fuel env n val e :
  fst (SendSignal fuel env n val) = Ok (Some e) ->
  (0 < n /\ exists j, select_done env j = Some e) \/
  exists j, write_err env j = Some e.
Proof.
  unfold SendSignal. intros H.
  apply (SendSignal_loop_error env n val e fuel 0%nat 0).
  destruct (SendSignal_loop fuel env n val 0 0) as [r t]. exact H.
Qed.

End lktest_properties.

(** ** Instances of the further properties *)

Lemma metrics_listener_is_optional_witness :
  count is_listen (events graceful_run) = 0%nat /\
  count is_serve (events graceful_run) = 0%nat /\
  count is_listener_close (events graceful_run) = 0%nat.
Proof.
  apply (proj2 (metrics_listener_is_optional (codes := protocol_values)
                  (world_of [3; 1; 0]) sample_conf failing_client
                  (ActRun :: ActStop false :: run_steps 3))).
  cbn. lia.
Defined.

Lemma Run_error_comes_from_startup_witness :
  ((Some (ExternalError "no bus") = listen_err failing_registration_world /\
    0 < config.PrometheusPort sample_conf) \/
   Some (ExternalError "no bus") = newServer_err failing_registration_world \/
   Some (ExternalError "no bus") = register_err failing_registration_world) /\
  count is_load (events (exec (codes := protocol_values) failing_registration_world
                           [ActRun] sample_init)) = 0%nat /\
  count is_poll (events (exec (codes := protocol_values) failing_registration_world
                           [ActRun] sample_init)) = 0%nat /\
  count is_service_stop (events (exec (codes := protocol_values) failing_registration_world
                                   [ActRun] sample_init)) = 0%nat.
Proof.
  exact (Run_error_comes_from_startup (codes := protocol_values)
           failing_registration_world sample_conf failing_client [ActRun]
           (ExternalError "no bus") eq_refl).
Defined.

Lemma Run_waits_for_Stop_witness :
  run waiting_run <> Returned None /\
  count is_load (events waiting_run) = 0%nat /\
  count is_service_stop (events waiting_run) = 0%nat.
Proof.
  exact (Run_waits_for_Stop (codes := protocol_values) (world_of [3; 1; 0])
           sample_conf failing_client
           [ActRun; ActRun; ActDispatchCall sample_call] eq_refl).
Defined.

Lemma kill_ends_the_drain_witness :
  run (exec (codes := protocol_values) (world_of [3; 1; 0])
         [ActStop true; ActRun] graceful_pass_run) = Returned None /\
  events (exec (codes := protocol_values) (world_of [3; 1; 0])
            [ActStop true; ActRun] graceful_pass_run)
  = events graceful_pass_run
    ++ [EvLog Info "shutting down" None; EvDeregisterTopic "cluster-a";
        EvLoadKilled true; EvServiceStop; EvRpcShutdown]
    ++ deferred_listener (svc graceful_pass_run) /\
  count is_poll (events (exec (codes := protocol_values) (world_of [3; 1; 0])
                           [ActStop true; ActRun] graceful_pass_run)) = 1%nat.
Proof.
  exact (kill_ends_the_drain (codes := protocol_values) (world_of [3; 1; 0])
           sample_conf failing_client [ActRun; ActStop false; ActRun] 1%nat eq_refl).
Defined.

Lemma drain_has_no_deadline_witness :
  run (exec (codes := protocol_values) (world_of [3; 1; 0]) (run_steps 2) parked_run)
  = Parked 2 /\
  svc (exec (codes := protocol_values) (world_of [3; 1; 0]) (run_steps 2) parked_run)
  = svc parked_run /\
  count is_sleep (events (exec (codes := protocol_values) (world_of [3; 1; 0])
                            (run_steps 2) parked_run))
  = (count is_sleep (events parked_run) + 2)%nat /\
  count is_service_stop (events (exec (codes := protocol_values) (world_of [3; 1; 0])
                                   (run_steps 2) parked_run))
  = count is_service_stop (events parked_run).
Proof.
  apply (drain_has_no_deadline (codes := protocol_values) (world_of [3; 1; 0]) 2
           parked_run 0%nat eq_refl eq_refl eq_refl eq_refl).
  intros i Hi. destruct i as [| [| i]]; cbn; lia.
Defined.

Lemma drain_returns_witness :
  run (exec (codes := protocol_values) (world_of [3; 1; 0]) (run_steps 3) parked_run)
  = Returned None /\
  count is_sleep (events (exec (codes := protocol_values) (world_of [3; 1; 0])
                            (run_steps 3) parked_run))
  = (count is_sleep (events parked_run) + 2)%nat /\
  count is_poll (events (exec (codes := protocol_values) (world_of [3; 1; 0])
                           (run_steps 3) parked_run))
  = (count is_poll (events parked_run) + 3)%nat /\
  In EvServiceStop (events (exec (codes := protocol_values) (world_of [3; 1; 0])
                              (run_steps 3) parked_run)).
Proof.
  apply (drain_returns (codes := protocol_values) (world_of [3; 1; 0]) 2
           parked_run 0%nat eq_refl eq_refl eq_refl eq_refl).
  - intros i Hi. destruct i as [| [| i]]; cbn; lia.
  - cbn. lia.
Defined.

Lemma Stop_before_Run_still_registers_witness :
  run (exec (codes := protocol_values) (world_of [3; 1; 0])
         [ActStop true; ActRun; ActRun] sample_init) = Returned None /\
  count is_register (events (exec (codes := protocol_values) (world_of [3; 1; 0])
                               [ActStop true; ActRun; ActRun] sample_init)) = 1%nat /\
  count is_deregister (events (exec (codes := protocol_values) (world_of [3; 1; 0])
                                 [ActStop true; ActRun; ActRun] sample_init)) = 1%nat /\
  count is_service_stop (events (exec (codes := protocol_values) (world_of [3; 1; 0])
                                   [ActStop true; ActRun; ActRun] sample_init)) = 1%nat.
Proof.
  exact (Stop_before_Run_still_registers (codes := protocol_values) (world_of [3; 1; 0])
           sample_conf failing_client true eq_refl eq_refl eq_refl (or_introl eq_refl)).
Defined.

Lemma waitRooms_filtered_witness :
  Forall (fun r => String.eqb r "room-a" = true) ["room-a"] /\
  exists j listed, (0 <= j)%nat /\ lktest.listing sample_polling j = inl listed /\
                   ["room-a"] = List.filter (fun r => String.eqb r "room-a") listed.
Proof.
  exact (lktest_properties.waitRooms_filtered 10 sample_polling 0 false
           (fun r => String.eqb r "room-a") ["room-a"] eq_refl).
Defined.

Lemma waitRooms_waits_witness :
  (false = false /\ @nil string <> []) \/ (false = true /\ @nil string = []) \/
  exists j, (0 <= j)%nat /\ lktest.ctx_done empty_polling j = true.
Proof.
  exact (lktest_properties.waitRooms_waits 10 empty_polling 0 false None [] eq_refl).
Defined.

Lemma waitRooms_ends_with_context_witness :
  lktest.waitRooms 6 empty_polling 0 false None <> lktest.Running.
Proof.
  apply (lktest_properties.waitRooms_ends_with_context 6 empty_polling 0 5 false None).
  - apply Nat.leb_le. reflexivity.
  - reflexivity.
  - apply Nat.ltb_lt. reflexivity.
Defined.

Lemma SendSignal_sends_n_witness :
  lktest.SendSignal 4 quiet_sending 3 440
  = (lktest.Ok None,
     lktest.LogSending 3 440
     :: repeat (lktest.WriteSample 440 lktest.signalAmp) (Z.to_nat 3)).
Proof.
  apply (lktest_properties.SendSignal_sends_n 4 quiet_sending 3 440).
  - split; [reflexivity | apply Z.leb_le; reflexivity].
  - intros k _. split; reflexivity.
  - apply Nat.ltb_lt. reflexivity.
Defined.

Lemma SendSignal_bounded_witness :
  (lktest.written (snd (lktest.SendSignal 10 cancelled_sending 3 440)) <= Z.to_nat 3)%nat /\
  (fst (lktest.SendSignal 10 cancelled_sending 3 440) = lktest.Ok None ->
   lktest.written (snd (lktest.SendSignal 10 cancelled_sending 3 440)) = Z.to_nat 3).
Proof.
  apply (lktest_properties.SendSignal_bounded 10 cancelled_sending 3 440).
  split; [reflexivity | apply Z.leb_le; reflexivity].
Defined.

Lemma SendSignal_open_ended_witness :
  exists j err, lktest.select_done cancelled_sending j = Some err.
Proof.
  exact (lktest_properties.SendSignal_open_ended 10 cancelled_sending 0 440
           (Z.le_refl 0)).
Defined.

Lemma SendSignal_error_origin_witness :
  (0 < 3 /\ exists j, lktest.select_done cancelled_sending j
                      = Some (ExternalError "context canceled")) \/
  exists j, lktest.write_err cancelled_sending j = Some (ExternalError "context canceled").
Proof.
  exact (lktest_properties.SendSignal_error_origin 10 cancelled_sending 3 440
           (ExternalError "context canceled") eq_refl).
Defined.

Lemma registrations_name_the_cluster_witness :
  carries_cluster "cluster-a" (EvDeregisterTopic "cluster-a").
Proof.
  apply (registrations_name_the_cluster (codes := protocol_values) (world_of [3; 1; 0])
           sample_conf failing_client (ActRun :: ActStop false :: run_steps 3)
           (EvDeregisterTopic "cluster-a")).
  cbn. auto 10.
Defined.
